(** * The media gallery application (app.py): model and properties

    A shallow embedding of the Flask route handlers of [app.py].  A handler
    is a computation in a state-and-exception monad over the relational
    store, the SQLAlchemy session (identity map and unit of work), the
    Flask session (logged-in user, flashed messages) and a log of the calls
    made to the outside (Cloudinary, HTTP, COMMIT).  The external services
    and the order in which the database returns rows are parameters of the
    development. *)

From Stdlib Require Import ZArith List String Ascii Bool Lia.
From Stdlib.Strings Require Import Byte.
From Stdlib Require Import Permutation DecimalString.
Import ListNotations.

Local Open Scope Z_scope.
Local Open Scope list_scope.

(** ** Models (app.py, lines 25-39)

    The tables are those of the PostgreSQL database config.py names.  A
    character of a string stands for one character of the Python [str];
    strings are taken to hold no NUL character.  The declared column types
    ([String(150)] and the like, [Integer]) are enforced by the database
    when a row is inserted: see [refused] below. *)

Module User.
Record t := mk
  { id : Z;
    username : string;
    password : string }.
End User.

Module Media.
Record t := mk
  { id : Z;
    filename : string;
    url : string;
    public_id : string;
    is_visible : bool;
    uploaded_by : string;
    description : option string;
    size : Z;
    mimetype : string }.

(** The assignment [media.is_visible = b]. *)
Definition set_is_visible (m : t) (b : bool) : t :=
  mk (id m) (filename m) (url m) (public_id m) b
     (uploaded_by m) (description m) (size m) (mimetype m).
End Media.

(** The two tables and their primary-key sequences.  A table is listed by
    insertion; this is not the order in which a query returns its rows
    (see [seq_scan]). *)
Record Database := mkDatabase
  { users : list User.t;
    medias : list Media.t;
    user_seq : Z;
    media_seq : Z }.

Definition with_users (d : Database) (us : list User.t) : Database :=
  mkDatabase us (medias d) (user_seq d) (media_seq d).

Definition with_medias (d : Database) (ms : list Media.t) : Database :=
  mkDatabase (users d) ms (user_seq d) (media_seq d).

(** ** Requests and responses *)

Inductive Method := GET | POST.

(** werkzeug's FileStorage: the uploaded file of a multipart form. *)
Record FileStorage := mkFile
  { file_filename : string;
    file_mimetype : string;
    file_content : list byte }.

(** What [request.get_json()] finds: a Content-Type that is not JSON, a
    body that does not parse, or the parsed body.  The JSON body of the
    bulk routes is an object whose values are lists of integers. *)
Inductive Body :=
| not_json
| malformed_json
| json_object (data : list (string * list Z)).

(** The form is a multi-dict of strings. *)
Record Request := mkRequest
  { method : Method;
    form : list (string * string);
    files : list (string * FileStorage);
    body : Body }.

(** [request.json], where there is one. *)
Definition json (request : Request) : option (list (string * list Z)) :=
  match body request with
  | json_object data => Some data
  | not_json | malformed_json => None
  end.

(** An exception, by the name of its class and its message.  For an error
    raised by the database the message is the one of the server (to which
    SQLAlchemy's [str] adds the statement and its parameters; no handler
    reads it). *)
Inductive Exception := Exc (type_name : string) (message : string).

Definition str (e : Exception) : string :=
  match e with Exc _ msg => msg end.

Inductive Response :=
| render_template (template : string) (listing : list Media.t)
| redirect (endpoint : string)
| jsonify (body : list (string * string))
| send_file (archive : list (string * list byte)) (download_name : string)
            (as_attachment : bool)
| error_page (e : Exception).

(** ** What a request does to the outside *)

Inductive Event :=
| EvUpload (filename : string)     (* cloudinary.uploader.upload(file) *)
| EvDestroy (public_id : string)   (* cloudinary.uploader.destroy(public_id) *)
| EvGet (url : string)             (* requests.get(url) *)
| EvDelete (m : Media.t)           (* db.session.delete(media) *)
| EvCommit.                        (* db.session.commit() *)

(** The state that outlives a request: the committed tables, the Flask
    session (user id of flask-login, flashed messages) and the log. *)
Record World := mkWorld
  { db : Database;
    user_id : option Z;
    flashes : list string;
    trace : list Event }.

(** The unit of work of the SQLAlchemy session. *)
Inductive Change :=
| InsertUser (username password : string)
| InsertMedia (filename url public_id uploaded_by : string)
              (description : option string) (size : Z) (mimetype : string)
| DeleteUser (id : Z)
| DeleteMedia (id : Z).

(** The state of a request in progress: the world, the view of the open
    transaction, the Media objects loaded in the session with their
    in-memory attribute values, and the changes not flushed yet. *)
Record State := mkState
  { world : World;
    txn : Database;
    identity_map : list Media.t;
    pending : list Change }.

Definition on_world (f : World -> World) (s : State) : State :=
  mkState (f (world s)) (txn s) (identity_map s) (pending s).

Definition log (e : Event) (w : World) : World :=
  mkWorld (db w) (user_id w) (flashes w) (trace w ++ [e]).

Definition tick (s : State) : nat := List.length (trace (world s)).

(** ** The monad of handlers: state, and exceptions that keep the state *)

Inductive result (A : Type) :=
| Return (a : A)
| Raise (e : Exception).
Arguments Return {A} a.
Arguments Raise {A} e.

Definition M (A : Type) : Type := State -> result A * State.

Definition ret {A} (a : A) : M A := fun s => (Return a, s).

Definition raise {A} (e : Exception) : M A := fun s => (Raise e, s).

Definition bind {A B} (c : M A) (k : A -> M B) : M B :=
  fun s => match c s with
           | (Return a, s') => k a s'
           | (Raise e, s') => (Raise e, s')
           end.

(** [try: c except Exception as e: h e] *)
Definition try_except {A} (c : M A) (h : Exception -> M A) : M A :=
  fun s => match c s with
           | (Return a, s') => (Return a, s')
           | (Raise e, s') => h e s'
           end.

Declare Scope handler_scope.
Delimit Scope handler_scope with handler.
Notation "x <- c1 ;; c2" := (bind c1 (fun x => c2))
  (at level 61, c1 at next level, right associativity) : handler_scope.
Notation "c1 ;; c2" := (bind c1 (fun _ => c2))
  (at level 61, right associativity) : handler_scope.
Local Open Scope handler_scope.

(** [for x in l: body x], with the local variables of the loop in [acc]. *)
Fixpoint for_fold {A B} (l : list A) (acc : B) (body : B -> A -> M B) : M B :=
  match l with
  | [] => ret acc
  | x :: l' => acc' <- body acc x ;; for_fold l' acc' body
  end.

Definition for_each {A} (l : list A) (body : A -> M unit) : M unit :=
  for_fold l tt (fun _ x => body x).

Definition modify (f : State -> State) : M unit := fun s => (Return tt, f s).

Definition emit (e : Event) : M unit := modify (on_world (log e)).

(** ** Python and werkzeug helpers *)

Fixpoint multi_get {V} (key : string) (d : list (string * V)) : option V :=
  match d with
  | [] => None
  | (k, v) :: d' => if (k =? key)%string then Some v else multi_get key d'
  end.

Definition multi_get_default {V} (key : string) (default : V)
    (d : list (string * V)) : V :=
  match multi_get key d with
  | Some v => v
  | None => default
  end.

Fixpoint getlist (key : string) (d : list (string * string)) : list string :=
  match d with
  | [] => []
  | (k, v) :: d' =>
      if (k =? key)%string then v :: getlist key d' else getlist key d'
  end.

(** ** The database: column types and the order of rows *)

Definition decimal (n : nat) : string :=
  NilEmpty.string_of_uint (Nat.to_uint n).

(** A [String(n)] column is a [character varying(n)]: a longer value is
    refused; NULL is not measured.  (PostgreSQL stores a longer value cut
    to [n] characters when all that is cut are spaces; such a value counts
    as refused here, and no statement below is about one.) *)
Definition varchar (n : nat) (value : option string) : option Exception :=
  match value with
  | Some v =>
      if (String.length v <=? n)%nat then None
      else Some (Exc "DataError"
                     ("value too long for type character varying("
                      ++ decimal n ++ ")"))
  | None => None
  end.

(** An [Integer] column holds 32 bits. *)
Definition integer (value : Z) : option Exception :=
  if (-2147483648 <=? value) && (value <=? 2147483647) then None
  else Some (Exc "DataError" "integer out of range").

(** The sequence of an [Integer] primary key ends with the type. *)
Definition double_quote : string := String (ascii_of_nat 34) EmptyString.

Definition nextval (sequence : string) (next : Z) : option Exception :=
  if next <=? 2147483647 then None
  else Some (Exc "DataError"
                 ("nextval: reached maximum value of sequence "
                  ++ double_quote ++ sequence ++ double_quote
                  ++ " (2147483647)")).

Definition first_error (checks : list (option Exception)) : option Exception :=
  fold_right (fun c rest => match c with Some e => Some e | None => rest end)
             None checks.

(** Why the database refuses a statement, if it does: an INSERT with a
    value that does not fit its column (lines 26-39).  The values are
    checked in the order of the columns, before the key is drawn. *)
Definition refused (d : Database) (c : Change) : option Exception :=
  match c with
  | InsertUser name pw =>
      first_error [varchar 150 (Some name); varchar 200 (Some pw);
                   nextval "user_id_seq" (user_seq d)]
  | InsertMedia fn u pid by_ descr sz mt =>
      first_error [varchar 300 (Some fn); varchar 500 (Some u);
                   varchar 500 (Some pid); varchar 150 (Some by_);
                   varchar 500 descr; integer sz; varchar 50 (Some mt);
                   nextval "media_id_seq" (media_seq d)]
  | DeleteUser _ | DeleteMedia _ => None
  end.

(** A query without ORDER BY returns the rows as a sequential scan meets
    them in the heap.  Where a row lies is for the database to decide (a
    new row version, written by an UPDATE, lies elsewhere than the old
    one): [pos] gives the position of each row, and the scan returns the
    rows by position. *)
Fixpoint place {A} (pos : A -> Z) (x : A) (l : list A) : list A :=
  match l with
  | [] => [x]
  | y :: l' => if pos x <=? pos y then x :: l else y :: place pos x l'
  end.

Definition seq_scan {A} (pos : A -> Z) (rows : list A) : list A :=
  fold_right (place pos) [] rows.

(** ** The ORM layer: queries, the identity map and the unit of work *)

Definition find_media (i : Z) (l : list Media.t) : option Media.t :=
  find (fun m => Media.id m =? i) l.

Definition find_user (i : Z) (l : list User.t) : option User.t :=
  find (fun u => User.id u =? i) l.

(** The row of a username; the column is UNIQUE, so there is at most one. *)
Definition find_username (name : string) (l : list User.t) : option User.t :=
  find (fun u => (User.username u =? name)%string) l.

(** UPDATE media SET is_visible = ? WHERE id = ?, for every loaded object. *)
Definition write_back (objs rows : list Media.t) : list Media.t :=
  map (fun r => match find_media (Media.id r) objs with
                | Some o => Media.set_is_visible r (Media.is_visible o)
                | None => r
                end) rows.

(** What a statement the database accepts does.  INSERT takes the next
    value of the sequence; [is_visible], which the constructor call leaves
    unset, takes the column default True. *)
Definition apply_change (d : Database) (c : Change) : Database :=
  match c with
  | InsertUser name pw =>
      mkDatabase (users d ++ [User.mk (user_seq d) name pw]) (medias d)
                 (user_seq d + 1) (media_seq d)
  | InsertMedia fn u pid by_ descr sz mt =>
      mkDatabase (users d)
                 (medias d ++ [Media.mk (media_seq d) fn u pid true by_ descr sz mt])
                 (user_seq d) (media_seq d + 1)
  | DeleteUser i =>
      with_users d (filter (fun u => negb (User.id u =? i)) (users d))
  | DeleteMedia i =>
      with_medias d (filter (fun m => negb (Media.id m =? i)) (medias d))
  end.

(** The error of the first statement of a unit of work that the database
    refuses. *)
Fixpoint refusal (cs : list Change) (d : Database) : option Exception :=
  match cs with
  | [] => None
  | c :: cs' =>
      match refused d c with
      | Some e => Some e
      | None => refusal cs' (apply_change d c)
      end
  end.

Definition marked (i : Z) (cs : list Change) : bool :=
  existsb (fun c => match c with DeleteMedia j => i =? j | _ => false end) cs.

(** The session after a flush that the database accepts: modified objects
    are written, then the unit of work is emitted; deleted objects leave
    the identity map.  (An inserted object is not entered in the map:
    every insert of app.py is flushed by the commit that follows it, which
    empties the map.) *)
Definition flushed (s : State) : State :=
  mkState (world s)
          (fold_left apply_change (pending s)
             (with_medias (txn s)
                (write_back (identity_map s) (medias (txn s)))))
          (filter (fun o => negb (marked (Media.id o) (pending s)))
                  (identity_map s))
          [].

(** The session after a flush that failed: the transaction is rolled back
    to the committed tables and the session holds nothing. *)
Definition rolled_back (s : State) : State :=
  mkState (world s) (db (world s)) [] [].

(** The flush: when the database refuses a statement the error is raised
    and the transaction is rolled back. *)
Definition flush : M unit :=
  fun s =>
    match refusal (pending s)
                  (with_medias (txn s)
                     (write_back (identity_map s) (medias (txn s)))) with
    | None => (Return tt, flushed s)
    | Some e => (Raise e, rolled_back s)
    end.

(** A query that emits SQL flushes first. *)
Definition autoflush : M unit := flush.

(** [Media.query.get(i)]: the identity map is consulted first, and an
    object found there is returned without SQL (also when it is marked
    for deletion and not flushed yet). *)
Definition Media_query_get (i : Z) : M (option Media.t) :=
  fun s =>
    match find_media i (identity_map s) with
    | Some m => (Return (Some m), s)
    | None =>
        (autoflush ;;
         fun s1 =>
           match find_media i (medias (txn s1)) with
           | Some m =>
               (Return (Some m),
                mkState (world s1) (txn s1) (identity_map s1 ++ [m])
                        (pending s1))
           | None => (Return None, s1)
           end) s
    end.

Definition User_query_get (i : Z) : M (option User.t) :=
  autoflush ;; fun s => (Return (find_user i (users (txn s))), s).

Definition User_query_filter_by_username_first (name : option string)
    : M (option User.t) :=
  autoflush ;;
  fun s => (Return match name with
                   | Some n => find_username n (users (txn s))
                   | None => None    (* username IS NULL matches no row *)
                   end, s).

(** The attribute assignment acts on the object of the identity map, which
    every reference obtained from [get] aliases. *)
Definition set_is_visible (m : Media.t) (b : bool) : M unit :=
  modify (fun s =>
    mkState (world s) (txn s)
            (map (fun o => if Media.id o =? Media.id m
                           then Media.set_is_visible o b else o)
                 (identity_map s))
            (pending s)).

Inductive Instance :=
| NewUser (username password : string)
| NewMedia (filename url public_id uploaded_by : string)
           (description : option string) (size : Z) (mimetype : string)
| AUser (u : User.t)
| AMedia (m : Media.t).

Definition add_pending (c : Change) : M unit :=
  modify (fun s => mkState (world s) (txn s) (identity_map s) (pending s ++ [c])).

(** [db.session.add(obj)]; adding an object that is in the session already
    changes nothing. *)
Definition db_session_add (obj : Instance) : M unit :=
  match obj with
  | NewUser name pw => add_pending (InsertUser name pw)
  | NewMedia fn u pid by_ descr sz mt =>
      add_pending (InsertMedia fn u pid by_ descr sz mt)
  | AUser _ | AMedia _ => ret tt
  end.

(** [db.session.delete(obj)] *)
Definition db_session_delete (obj : Instance) : M unit :=
  match obj with
  | AUser u => add_pending (DeleteUser (User.id u))
  | AMedia m => emit (EvDelete m) ;; add_pending (DeleteMedia (Media.id m))
  | NewUser _ _ | NewMedia _ _ _ _ _ _ _ =>
      raise (Exc "InvalidRequestError" "Instance is not persisted")
  end.

(** COMMIT: the transaction becomes durable and the loaded objects are
    expired. *)
Definition commit (s : State) : State :=
  mkState (log EvCommit
             (mkWorld (txn s) (user_id (world s)) (flashes (world s))
                      (trace (world s))))
          (txn s) [] [].

(** [db.session.commit()]: flush, then COMMIT.  When the flush raises
    nothing is committed. *)
Definition db_session_commit : M unit := flush ;; modify commit.

(** ** Flask and flask-login *)

Definition flash (msg : string) : M unit :=
  modify (on_world (fun w =>
    mkWorld (db w) (user_id w) (flashes w ++ [msg]) (trace w))).

(** [load_user] (lines 42-44) applied to the user id of the session. *)
Definition current_user : M (option User.t) :=
  fun s => match user_id (world s) with
           | Some uid => User_query_get uid s
           | None => (Return None, s)
           end.

Definition login_user (u : User.t) : M unit :=
  modify (on_world (fun w =>
    mkWorld (db w) (Some (User.id u)) (flashes w) (trace w))).

Definition logout_user : M unit :=
  modify (on_world (fun w => mkWorld (db w) None (flashes w) (trace w))).

(** [@login_required], with [login_manager.login_view = 'login']. *)
Definition login_required (view : M Response) : M Response :=
  u <- current_user ;;
  match u with
  | Some _ => view
  | None => flash "Please log in to access this page." ;; ret (redirect "login")
  end.

(** A request starts a fresh session on the committed tables; what is not
    committed when it ends, normally or by an exception, is rolled back. *)
Definition begin (w : World) : State := mkState w (db w) [] [].

Definition serve (view : M Response) (w : World) : Response * World :=
  match view (begin w) with
  | (Return r, s) => (r, world s)
  | (Raise e, s) => (error_page e, world s)
  end.

(** ** The external collaborators *)

(** What app.py reads of the dictionary returned by
    [cloudinary.uploader.upload]. *)
Record UploadResult := mkUploadResult
  { secure_url : string;
    result_public_id : string }.

(** The libraries app.py calls, and the database server.  An outcome may
    depend on the moment of the call, given as the length of the log; for
    the password hash this stands for the random salt.  [destroy] returns
    the ["result"] string of Cloudinary's answer, or raises.
    [heap_position n table key] is where the row of that primary key lies
    in the heap of the table at moment [n]. *)
Record Services := mkServices
  { generate_password_hash : nat -> string -> string;
    check_password_hash : string -> string -> bool;
    uploader_upload : nat -> FileStorage -> result UploadResult;
    uploader_destroy : nat -> string -> result string;
    requests_get : nat -> string -> result (list byte);
    int : string -> result Z;
    heap_position : nat -> string -> Z -> Z }.

(** Python's [if not x] on a form value: None and the empty string fail. *)
Definition nonempty (o : option string) : option string :=
  match o with
  | Some s => if (s =? "")%string then None else Some s
  | None => None
  end.

(** SELECT ... FROM table, without ORDER BY, at moment [n]. *)
Definition select {A} (lib : Services) (n : nat) (table : string)
    (key : A -> Z) (rows : list A) : list A :=
  seq_scan (fun r => heap_position lib n table (key r)) rows.

Section App.

Variable lib : Services.

Definition Media_query_all : M (list Media.t) :=
  autoflush ;;
  fun s => (Return (select lib (tick s) "media" Media.id (medias (txn s))), s).

Definition Media_query_filter_by_is_visible (b : bool) : M (list Media.t) :=
  autoflush ;;
  fun s => (Return (select lib (tick s) "media" Media.id
                      (filter (fun m => Bool.eqb (Media.is_visible m) b)
                              (medias (txn s)))), s).

Definition User_query_first : M (option User.t) :=
  autoflush ;;
  fun s => (Return (hd_error (select lib (tick s) "user" User.id
                                     (users (txn s)))), s).

Definition werkzeug_generate_password_hash (password : string) : M string :=
  fun s => (Return (generate_password_hash lib (tick s) password), s).

(** [check_password_hash(pwhash, None)] fails on [password.encode()]. *)
Definition werkzeug_check_password_hash (pwhash : string)
    (password : option string) : M bool :=
  match password with
  | Some p => ret (check_password_hash lib pwhash p)
  | None =>
      raise (Exc "AttributeError" "'NoneType' object has no attribute 'encode'")
  end.

Definition cloudinary_uploader_upload (file : FileStorage) : M UploadResult :=
  fun s => (uploader_upload lib (tick s) file,
            on_world (log (EvUpload (file_filename file))) s).

Definition cloudinary_uploader_destroy (public_id : string) : M string :=
  fun s => (uploader_destroy lib (tick s) public_id,
            on_world (log (EvDestroy public_id)) s).

Definition requests_get_content (url : string) : M (list byte) :=
  fun s => (requests_get lib (tick s) url, on_world (log (EvGet url)) s).

Definition py_int (x : string) : M Z := fun s => (int lib x, s).

(** [request.get_json()]: 415 when the Content-Type is not JSON, 400
    when the body does not parse. *)
Definition get_json (request : Request) : M (list (string * list Z)) :=
  match body request with
  | json_object data => ret data
  | malformed_json =>
      raise (Exc "BadRequest"
                 "400 Bad Request: The browser (or proxy) sent a request that this server could not understand.")
  | not_json =>
      raise (Exc "UnsupportedMediaType"
                 "415 Unsupported Media Type: Did not attempt to load JSON data because the request Content-Type was not 'application/json'.")
  end.

(** *** Auth routes (lines 47-115) *)

Definition setup (request : Request) : M Response :=
  match method request with
  | POST =>
      match nonempty (multi_get "username" (form request)),
            nonempty (multi_get "password" (form request)) with
      | Some username, Some password =>
          existing <- User_query_filter_by_username_first (Some username) ;;
          match existing with
          | Some existing =>
              db_session_delete (AUser existing) ;;
              db_session_commit
          | None => ret tt
          end ;;
          hashed <- werkzeug_generate_password_hash password ;;
          db_session_add (NewUser username hashed) ;;
          db_session_commit ;;
          flash ("Admin '" ++ username ++ "' created! You can now log in.") ;;
          ret (redirect "login")
      | _, _ =>
          flash "Username and password cannot be empty." ;;
          ret (render_template "setup.html" [])
      end
  | GET => ret (render_template "setup.html" [])
  end.

Definition register (request : Request) : M Response :=
  match method request with
  | POST =>
      match nonempty (multi_get "username" (form request)),
            nonempty (multi_get "password" (form request)) with
      | Some username, Some password =>
          taken <- User_query_filter_by_username_first (Some username) ;;
          match taken with
          | Some _ =>
              flash "That username is already taken." ;;
              ret (redirect "register")
          | None =>
              hashed <- werkzeug_generate_password_hash password ;;
              db_session_add (NewUser username hashed) ;;
              db_session_commit ;;
              flash ("User '" ++ username
                     ++ "' created successfully. You can now log in.") ;;
              ret (redirect "login")
          end
      | _, _ =>
          flash "Username and password cannot be empty." ;;
          ret (redirect "register")
      end
  | GET => ret (render_template "register.html" [])
  end.

Definition login (request : Request) : M Response :=
  first <- User_query_first ;;
  match first with
  | None => ret (redirect "setup")
  | Some _ =>
      match method request with
      | POST =>
          let username := multi_get "username" (form request) in
          let password := multi_get "password" (form request) in
          let invalid :=
            flash "Invalid credentials" ;;
            ret (render_template "login.html" []) in
          user <- User_query_filter_by_username_first username ;;
          match user with
          | Some user =>
              ok <- werkzeug_check_password_hash (User.password user) password ;;
              if ok then login_user user ;; ret (redirect "manage")
              else invalid
          | None => invalid
          end
      | GET => ret (render_template "login.html" [])
      end
  end.

Definition logout : M Response :=
  login_required (logout_user ;; ret (redirect "gallery")).

(** *** Media routes (lines 118-221) *)

Definition home : M Response := ret (redirect "upload").

Definition upload (request : Request) : M Response :=
  let form_page := ret (render_template "upload.html" []) in
  match method request with
  | POST =>
      match multi_get "file" (files request) with
      | Some file =>
          if negb (file_filename file =? "")%string then
            user <- current_user ;;
            let uploader_name :=
              match user with
              | Some u => User.username u
              | None =>
                  multi_get_default "uploader_name" "Anonymous"%string
                                    (form request)
              end in
            let size := Z.of_nat (List.length (file_content file)) in
            attempt <-
              try_except
                (result <- cloudinary_uploader_upload file ;; ret (inl result))
                (fun e =>
                   flash ("Upload failed: " ++ str e) ;;
                   ret (inr (redirect "upload"))) ;;
            match attempt with
            | inr response => ret response
            | inl result =>
                db_session_add
                  (NewMedia (file_filename file)
                            (secure_url result)
                            (result_public_id result)
                            uploader_name
                            (multi_get "description" (form request))
                            size
                            (file_mimetype file)) ;;
                db_session_commit ;;
                flash "Upload successful!" ;;
                ret (redirect "gallery")
            end
          else form_page
      | None => form_page
      end
  | GET => form_page
  end.

Definition gallery : M Response :=
  medias <- Media_query_filter_by_is_visible true ;;
  ret (render_template "gallery.html" medias).

Definition manage : M Response :=
  login_required
    (medias <- Media_query_all ;;
     ret (render_template "manage.html" medias)).

Definition delete (media_id : Z) : M Response :=
  login_required
    (media <- Media_query_get media_id ;;
     match media with
     | Some media =>
         cloudinary_uploader_destroy (Media.public_id media) ;;
         db_session_delete (AMedia media) ;;
         db_session_commit ;;
         flash "Deleted successfully"
     | None => ret tt
     end ;;
     ret (redirect "manage")).

Definition toggle_visibility (media_id : Z) : M Response :=
  login_required
    (media <- Media_query_get media_id ;;
     match media with
     | Some media =>
         set_is_visible media (negb (Media.is_visible media)) ;;
         db_session_commit
     | None => ret tt
     end ;;
     ret (redirect "manage")).

Definition download_selected (request : Request) : M Response :=
  login_required
    (let selected_ids := getlist "media_ids" (form request) in
     match selected_ids with
     | [] =>
         flash "No files selected" ;;
         ret (redirect "manage")
     | _ :: _ =>
         zf <- for_fold selected_ids []
                 (fun zf media_id =>
                    i <- py_int media_id ;;
                    media <- Media_query_get i ;;
                    match media with
                    | Some media =>
                        content <- requests_get_content (Media.url media) ;;
                        ret (zf ++ [(Media.filename media, content)])
                    | None => ret zf
                    end) ;;
         ret (send_file zf "selected_media.zip" true)
     end).

(** *** Bulk operations (lines 226-251) *)

Definition bulk_toggle_visibility (request : Request) : M Response :=
  login_required
    (data <- get_json request ;;
     let media_ids := multi_get_default "media_ids" [] data in
     for_each media_ids
       (fun m_id =>
          media <- Media_query_get m_id ;;
          match media with
          | Some media =>
              set_is_visible media (negb (Media.is_visible media)) ;;
              db_session_add (AMedia media)
          | None => ret tt
          end) ;;
     db_session_commit ;;
     ret (jsonify [("status", "success")%string])).

Definition bulk_delete (request : Request) : M Response :=
  login_required
    (data <- get_json request ;;
     let media_ids := multi_get_default "media_ids" [] data in
     for_each media_ids
       (fun m_id =>
          media <- Media_query_get m_id ;;
          match media with
          | Some media =>
              cloudinary_uploader_destroy (Media.public_id media) ;;
              db_session_delete (AMedia media)
          | None => ret tt
          end) ;;
     db_session_commit ;;
     ret (jsonify [("status", "success")%string])).

(** *** The URL map (the [@app.route] decorators)

    A route stands for a path; [route_delete i] for [/delete/i].  The
    handlers are defined for any integer. *)

Inductive Route :=
| route_setup
| route_register
| route_login
| route_logout
| route_home
| route_upload
| route_gallery
| route_manage
| route_delete (media_id : Z)
| route_toggle_visibility (media_id : Z)
| route_download_selected
| route_bulk_toggle_visibility
| route_bulk_delete.

Definition methods (r : Route) : list Method :=
  match r with
  | route_setup | route_register | route_login | route_upload => [GET; POST]
  | route_download_selected | route_bulk_toggle_visibility
  | route_bulk_delete => [POST]
  | _ => [GET]
  end.

Definition view_function (r : Route) (request : Request) : M Response :=
  match r with
  | route_setup => setup request
  | route_register => register request
  | route_login => login request
  | route_logout => logout
  | route_home => home
  | route_upload => upload request
  | route_gallery => gallery
  | route_manage => manage
  | route_delete media_id => delete media_id
  | route_toggle_visibility media_id => toggle_visibility media_id
  | route_download_selected => download_selected request
  | route_bulk_toggle_visibility => bulk_toggle_visibility request
  | route_bulk_delete => bulk_delete request
  end.

(** The converter [<int:media_id>] matches digits only: a path with a
    negative number matches no rule. *)
Definition matched (r : Route) : bool :=
  match r with
  | route_delete media_id | route_toggle_visibility media_id =>
      0 <=? media_id
  | _ => true
  end.

Definition allows (ms : list Method) (m : Method) : bool :=
  existsb (fun m' => match m, m' with
                     | GET, GET | POST, POST => true
                     | _, _ => false
                     end) ms.

Definition dispatch (r : Route) (request : Request) : M Response :=
  if matched r then
    if allows (methods r) (method request)
    then view_function r request
    else raise (Exc "MethodNotAllowed"
                    "405 Method Not Allowed: The method is not allowed for the requested URL.")
  else raise (Exc "NotFound"
                  "404 Not Found: The requested URL was not found on the server. If you entered the URL manually please check your spelling and try again.").

End App.

(** ** Schema constraints and the logged-in user *)

(** Primary keys and the unique username, with the sequences ahead of the
    keys in use. *)
Definition db_ok (d : Database) : Prop :=
  NoDup (map Media.id (medias d)) /\
  NoDup (map User.id (users d)) /\
  NoDup (map User.username (users d)) /\
  (forall m, In m (medias d) -> Media.id m < media_seq d) /\
  (forall u, In u (users d) -> User.id u < user_seq d).

(** The user flask-login finds for the request, if any. *)
Definition logged_in (w : World) : option User.t :=
  match user_id w with
  | Some uid => find_user uid (users (db w))
  | None => None
  end.

Definition is_authenticated (w : World) : bool :=
  match logged_in w with Some _ => true | None => false end.

(** The rows with [is_visible] true: what /gallery lists, in some order. *)
Definition gallery_listing (d : Database) : list Media.t :=
  filter (fun m => Bool.eqb (Media.is_visible m) true) (medias d).

(** The name the upload is recorded under (line 129). *)
Definition uploader_name (w : World) (request : Request) : string :=
  match logged_in w with
  | Some u => User.username u
  | None => multi_get_default "uploader_name" "Anonymous"%string (form request)
  end.

(** The row an accepted upload inserts. *)
Definition uploaded_row (w : World) (request : Request) (file : FileStorage)
    (result : UploadResult) : Media.t :=
  Media.mk (media_seq (db w))
           (file_filename file)
           (secure_url result)
           (result_public_id result)
           true
           (uploader_name w request)
           (multi_get "description" (form request))
           (Z.of_nat (List.length (file_content file)))
           (file_mimetype file).

(** The row with its visibility flag inverted, and the table after the
    flag of the rows of primary key [i] is inverted. *)
Definition toggled (m : Media.t) : Media.t :=
  Media.set_is_visible m (negb (Media.is_visible m)).

Definition toggle_row (i : Z) (rows : list Media.t) : list Media.t :=
  map (fun r => if Media.id r =? i then toggled r else r) rows.

(** DELETE FROM media WHERE id = i. *)
Definition delete_row (i : Z) (rows : list Media.t) : list Media.t :=
  filter (fun r => negb (Media.id r =? i)) rows.

(** Cloudinary acknowledges a destroy with the result ["ok"]. *)
Definition acknowledged (outcome : result string) : bool :=
  match outcome with
  | Return r => (r =? "ok")%string
  | Raise _ => false
  end.

(** ** A concrete instance, for the examples *)

Module Demo.

(** Python's [int] on a string: surrounding whitespace is dropped, a
    sign may come first, and one underscore may stand between two
    digits.  [digits] gives the value and the number of digits. *)
Definition is_space (c : ascii) : bool :=
  let n := nat_of_ascii c in
  (((9 <=? n) && (n <=? 13)) || ((28 <=? n) && (n <=? 32))
   || (n =? 133) || (n =? 160))%nat.

Fixpoint lstrip (l : list ascii) : list ascii :=
  match l with
  | c :: l' => if is_space c then lstrip l' else l
  | [] => []
  end.

Definition strip (x : string) : list ascii :=
  rev (lstrip (rev (lstrip (list_ascii_of_string x)))).

Fixpoint digits (l : list ascii) (acc : Z) (count : nat) (after_digit : bool)
    : option (Z * nat) :=
  match l with
  | [] => if after_digit then Some (acc, count) else None
  | c :: l' =>
      if Ascii.eqb c "_" then
        if after_digit then digits l' acc count false else None
      else
        let n := Z.of_nat (nat_of_ascii c) - 48 in
        if (0 <=? n) && (n <=? 9)
        then digits l' (10 * acc + n) (S count) true
        else None
  end.

Definition signed (l : list ascii) : option (Z * nat) :=
  match l with
  | "+"%char :: l' => digits l' 0 0%nat false
  | "-"%char :: l' =>
      match digits l' 0 0%nat false with
      | Some (z, count) => Some (- z, count)
      | None => None
      end
  | _ => digits l 0 0%nat false
  end.

(** [repr] of a string, for the message of the ValueError. *)
Definition quote : ascii := ascii_of_nat 39.
Definition double : ascii := ascii_of_nat 34.
Definition backslash : ascii := ascii_of_nat 92.

Definition hex (n : nat) : ascii :=
  nth n (list_ascii_of_string "0123456789abcdef") "0"%char.

Definition printable (c : ascii) : bool :=
  let n := nat_of_ascii c in
  (((32 <=? n) && (n <=? 126))
   || ((161 <=? n) && negb (n =? 173)))%nat.

Definition escape (delimiter c : ascii) : list ascii :=
  if Ascii.eqb c backslash then [backslash; backslash]
  else if Ascii.eqb c delimiter then [backslash; c]
  else if Ascii.eqb c (ascii_of_nat 9) then [backslash; "t"%char]
  else if Ascii.eqb c (ascii_of_nat 10) then [backslash; "n"%char]
  else if Ascii.eqb c (ascii_of_nat 13) then [backslash; "r"%char]
  else if printable c then [c]
  else [backslash; "x"%char; hex (nat_of_ascii c / 16);
        hex (nat_of_ascii c mod 16)].

Definition repr (x : string) : string :=
  let l := list_ascii_of_string x in
  let delimiter :=
    if existsb (Ascii.eqb quote) l && negb (existsb (Ascii.eqb double) l)
    then double else quote in
  string_of_list_ascii
    (delimiter :: flat_map (escape delimiter) l ++ [delimiter]).

(** The message shows at most 200 characters of the literal; a literal
    of more than 4300 digits is refused for its length. *)
Definition int (x : string) : result Z :=
  match signed (strip x) with
  | Some (z, count) =>
      if (count <=? 4300)%nat then Return z
      else Raise (Exc "ValueError"
                      ("Exceeds the limit (4300 digits) for integer string conversion: value has "
                       ++ decimal count
                       ++ " digits; use sys.set_int_max_str_digits() to increase the limit"))
  | None =>
      Raise (Exc "ValueError"
                 ("invalid literal for int() with base 10: "
                  ++ substring 0 200 (repr x)))
  end.

(** Every remote call returns; [destroy] reports [destroy_result].  A
    scan returns the rows by primary key. *)
Definition lib (destroy_result : string) : Services :=
  mkServices
    (fun _ pw => ("plain$" ++ pw)%string)
    (fun pwhash pw => (pwhash =? "plain$" ++ pw)%string)
    (fun _ file =>
       Return (mkUploadResult
                 ("https://res.example/" ++ file_filename file)%string
                 ("pid-" ++ file_filename file)%string))
    (fun _ _ => Return destroy_result)
    (fun _ url => Return (list_byte_of_string url))
    int
    (fun _ _ key => key).

(** The remote store is unreachable: upload and destroy raise. *)
Definition offline : Services :=
  mkServices
    (generate_password_hash (lib "ok"))
    (check_password_hash (lib "ok"))
    (fun _ _ => Raise (Exc "Error" "connection refused"))
    (fun _ _ => Raise (Exc "Error" "connection refused"))
    (requests_get (lib "ok"))
    int
    (heap_position (lib "ok")).

Definition admin : User.t := User.mk 1 "admin" "plain$secret".

Definition photo : Media.t :=
  Media.mk 1 "photo.png" "https://res.example/photo.png" "pid-photo.png"
           true "admin" None 3 "image/png".

Definition notes : Media.t :=
  Media.mk 3 "notes.txt" "https://res.example/notes.txt" "pid-notes.txt"
           false "Anonymous" (Some "draft"%string) 5 "text/plain".

(** Two media rows (ids 1 and 3), one user, who is logged in. *)
Definition world : World :=
  mkWorld (mkDatabase [admin] [photo; notes] 2 4) (Some 1) [] [].

Definition cat : FileStorage :=
  mkFile "cat.png" "image/png" [x89; x50; x4e; x47].

(** What [int] returns where it returns, and the download of a URL. *)
Definition parse (x : string) : Z :=
  match int x with Return z => z | Raise _ => 0 end.

Definition fetch (n : nat) (url : string) : list byte :=
  list_byte_of_string url.

Definition post_form (fields : list (string * string)) : Request :=
  mkRequest POST fields [] not_json.

Definition post_json (media_ids : list Z) : Request :=
  mkRequest POST [] [] (json_object [("media_ids"%string, media_ids)]).

Definition post_file (file : FileStorage) : Request :=
  mkRequest POST [] [("file"%string, file)] not_json.


Definition select_1_7 : Request :=
  post_form [("media_ids", "1"); ("media_ids", "7")]%string.

Definition select_1_1 : Request :=
  post_form [("media_ids", "1"); ("media_ids", "1")]%string.

End Demo.

(** A computation that leaves the committed tables as they are. *)
Definition keeps_db {A} (c : M A) : Prop :=
  forall s, db (world (snd (c s))) = db (world s).

(** The database before the first request. *)
Definition empty_db : Database := mkDatabase [] [] 1 1.

(** The worlds the application can be in: it starts on the empty database
    with nobody logged in, and every request is served by [dispatch]. *)
Inductive reachable (lib : Services) : World -> Prop :=
| reachable_start : reachable lib (mkWorld empty_db None [] [])
| reachable_request (w : World) (r : Route) (request : Request) :
    reachable lib w ->
    reachable lib (snd (serve (dispatch lib r request) w)).

(** ** Vocabulary of the bulk routes *)

(** What the session would write to the media table if flushed now, when
    nothing but attribute changes is outstanding. *)
Definition view (s : State) : list Media.t :=
  write_back (identity_map s) (medias (txn s)).

(** One inversion of the flag per occurrence of the row's key in [ids]. *)
Definition toggle_rows (ids : list Z) (rows : list Media.t) : list Media.t :=
  map (fun r => if Nat.odd (count_occ Z.eq_dec ids (Media.id r))
                then toggled r else r) rows.

Definition success : Response := jsonify [("status", "success")%string].

(** The rows the selected keys find, in the order of selection, and the
    archive entries made of them when the k-th download is [fetch] at
    moment [n + k]. *)
Definition selected_rows (ids : list Z) (rows : list Media.t) : list Media.t :=
  flat_map (fun i => match find_media i rows with
                     | Some m => [m]
                     | None => []
                     end) ids.

Fixpoint entries_from (fetch : nat -> string -> list byte) (n : nat)
    (ms : list Media.t) : list (string * list byte) :=
  match ms with
  | [] => []
  | m :: ms' =>
      (Media.filename m, fetch n (Media.url m)) :: entries_from fetch (S n) ms'
  end.

(** DELETE FROM media WHERE id IN ids. *)
Definition delete_rows (ids : list Z) (rows : list Media.t) : list Media.t :=
  filter (fun r => negb (existsb (Z.eqb (Media.id r)) ids)) rows.

(** In a log, every [db.session.delete] comes right after the destroy call
    for the public id of the object deleted. *)
Definition destroyed_before_deleted (T : list Event) : Prop :=
  forall pre m post,
    T = pre ++ EvDelete m :: post ->
    exists pre', pre = pre' ++ [EvDestroy (Media.public_id m)].

(** The media table as the pending deletions will leave it. *)
Definition remaining (s : State) : list Media.t :=
  filter (fun r => negb (marked (Media.id r) (pending s))) (medias (txn s)).

Definition is_delete (c : Change) : Prop :=
  match c with DeleteMedia _ => True | _ => False end.

(** The loop bodies of the bulk routes, named. *)
Definition toggle_body (m_id : Z) : M unit :=
  media <- Media_query_get m_id ;;
  match media with
  | Some media =>
      set_is_visible media (negb (Media.is_visible media)) ;;
      db_session_add (AMedia media)
  | None => ret tt
  end.

Definition download_body (lib : Services) (zf : list (string * list byte))
    (media_id : string) : M (list (string * list byte)) :=
  i <- py_int lib media_id ;;
  media <- Media_query_get i ;;
  match media with
  | Some media =>
      content <- requests_get_content lib (Media.url media) ;;
      ret (zf ++ [(Media.filename media, content)])
  | None => ret zf
  end.

Definition delete_body (lib : Services) (m_id : Z) : M unit :=
  media <- Media_query_get m_id ;;
  match media with
  | Some media =>
      cloudinary_uploader_destroy lib (Media.public_id media) ;;
      db_session_delete (AMedia media)
  | None => ret tt
  end.

(** ** Vocabulary of the further properties *)

(** The routes decorated with [@login_required]. *)
Definition protected (r : Route) : bool :=
  match r with
  | route_logout | route_manage | route_delete _ | route_toggle_visibility _
  | route_download_selected | route_bulk_toggle_visibility
  | route_bulk_delete => true
  | _ => false
  end.

(** The routes whose handler adds or deletes User objects, and those whose
    handler adds, deletes or modifies Media objects. *)
Definition writes_users (r : Route) : bool :=
  match r with
  | route_setup | route_register => true
  | _ => false
  end.

Definition writes_medias (r : Route) : bool :=
  match r with
  | route_upload | route_delete _ | route_toggle_visibility _
  | route_bulk_toggle_visibility | route_bulk_delete => true
  | _ => false
  end.

(** What flask-login's [unauthorized] leaves of a world. *)
Definition denied (w : World) : World :=
  mkWorld (db w) (user_id w)
          (flashes w ++ ["Please log in to access this page."%string])
          (trace w).

Definition is_get (e : Event) : Prop :=
  match e with EvGet _ => True | _ => False end.

(** From [w] to [w'] nothing was committed, the login is the same, and the
    only calls made to the outside are downloads. *)
Definition only_reads (w w' : World) : Prop :=
  db w' = db w /\
  user_id w' = user_id w /\
  exists T, trace w' = trace w ++ T /\ Forall is_get T.

(** A computation whose effect on the world stays within a relation. *)
Definition within (R : World -> World -> Prop) {A} (c : M A) : Prop :=
  forall s, R (world s) (world (snd (c s))).

(** The users table, resp. the media table, and its sequence are the same
    in two databases. *)
Definition same_users (d d' : Database) : Prop :=
  users d' = users d /\ user_seq d' = user_seq d.

Definition same_medias (d d' : Database) : Prop :=
  medias d' = medias d /\ media_seq d' = media_seq d.

(** ** Further concrete cases *)

Module Cases.

(** The demo tables seen without a login. *)
Definition visitor : World := mkWorld (db Demo.world) None [] [].

(** A remote store whose first call returns and whose later calls
    raise. *)
Definition flaky : Services :=
  mkServices
    (generate_password_hash (Demo.lib "ok"))
    (check_password_hash (Demo.lib "ok"))
    (uploader_upload (Demo.lib "ok"))
    (fun n _ => match n with
                | O => Return "ok"%string
                | S _ => Raise (Exc "Error" "timed out")
                end)
    (requests_get (Demo.lib "ok"))
    Demo.int
    (heap_position (Demo.lib "ok")).

Definition login_admin (password : string) : Request :=
  Demo.post_form [("username", "admin"); ("password", password)]%string.

Definition select_1_abc : Request :=
  Demo.post_form [("media_ids", "1"); ("media_ids", "abc")]%string.

(** The world before the first request. *)
Definition start : World := mkWorld empty_db None [] [].

End Cases.

(** ** Vocabulary of the column types *)




(** The content of a download that returned. *)
Definition content_of (outcome : result (list byte)) : list byte :=
  match outcome with
  | Return c => c
  | Raise _ => []
  end.

(** What the download of a URL at a moment brings. *)
Definition fetched (lib : Services) (n : nat) (url : string) : list byte :=
  content_of (requests_get lib n url).


(** ** Concrete cases of the column types and of the order of rows *)

Module Limits.







(** A database that, once something was committed, holds the row of
    key 1 behind the other rows: the new version of an updated row is
    written where there is room. *)
Definition rewriting : Services :=
  mkServices
    (generate_password_hash (Demo.lib "ok"))
    (check_password_hash (Demo.lib "ok"))
    (uploader_upload (Demo.lib "ok"))
    (uploader_destroy (Demo.lib "ok"))
    (requests_get (Demo.lib "ok"))
    Demo.int
    (fun n _ key => match n with
                    | O => key
                    | S _ => if key =? 1 then 1000 else key
                    end).

(** The demo world after /toggle_visibility/1. *)
Definition hidden : World :=
  mkWorld (mkDatabase [Demo.admin] [toggled Demo.photo; Demo.notes] 2 4)
          (Some 1) [] [EvCommit].





(** A download service that fails for every URL but that of the photo. *)
Definition one_url : Services :=
  mkServices
    (generate_password_hash (Demo.lib "ok"))
    (check_password_hash (Demo.lib "ok"))
    (uploader_upload (Demo.lib "ok"))
    (uploader_destroy (Demo.lib "ok"))
    (fun _ url =>
       if (url =? "https://res.example/photo.png")%string
       then Return (list_byte_of_string "PNG")
       else Raise (Exc "ConnectionError" "Max retries exceeded"))
    Demo.int
    (heap_position (Demo.lib "ok")).

End Limits.

(** ** Basic facts about the session *)

Lemma set_is_visible_same (m : Media.t) :
  Media.set_is_visible m (Media.is_visible m) = m.
Proof. destruct m; reflexivity. Qed.

Lemma set_is_visible_twice (m : Media.t) (a b : bool) :
  Media.set_is_visible (Media.set_is_visible m a) b = Media.set_is_visible m b.
Proof. reflexivity. Qed.

Lemma write_back_nil (rows : list Media.t) : write_back [] rows = rows.
Proof. unfold write_back; simpl. apply map_id. Qed.

Lemma with_medias_same (d : Database) : with_medias d (medias d) = d.
Proof. destruct d; reflexivity. Qed.

(** *** The flush *)

(** The database refuses no DELETE. *)
Lemma refusal_deletes (cs : list Change) (d : Database) :
  Forall is_delete cs -> refusal cs d = None.
Proof.
  intros Hcs. revert d. induction Hcs as [|c cs Hc Hcs IH]; intros d.
  - reflexivity.
  - destruct c; try contradiction. cbn [refusal refused]. apply IH.
Qed.

Lemma flush_deletes (s : State) :
  Forall is_delete (pending s) -> flush s = (Return tt, flushed s).
Proof. intros Hp. unfold flush. now rewrite refusal_deletes. Qed.

Lemma flush_nothing (s : State) :
  pending s = [] -> flush s = (Return tt, flushed s).
Proof. intros Hp. apply flush_deletes. rewrite Hp. constructor. Qed.

Lemma flushed_clean (s : State) :
  identity_map s = [] -> pending s = [] -> flushed s = s.
Proof.
  destruct s as [w d idm p]; simpl; intros -> ->.
  unfold flushed; simpl. now rewrite write_back_nil, with_medias_same.
Qed.

Lemma flush_begin (w : World) : flush (begin w) = (Return tt, begin w).
Proof. rewrite flush_nothing by reflexivity. now rewrite flushed_clean. Qed.

(** A flush touches neither the committed tables nor the Flask session nor
    the log. *)
Lemma flush_world (s : State) : world (snd (flush s)) = world s.
Proof. unfold flush. now destruct (refusal _ _). Qed.

(** [Media.query.get] in a session that has nothing but deletions to
    flush. *)
Lemma Media_query_get_deletes (i : Z) (s : State) :
  Forall is_delete (pending s) ->
  Media_query_get i s =
    match find_media i (identity_map s) with
    | Some m => (Return (Some m), s)
    | None =>
        let s1 := flushed s in
        match find_media i (medias (txn s1)) with
        | Some m =>
            (Return (Some m),
             mkState (world s1) (txn s1) (identity_map s1 ++ [m]) (pending s1))
        | None => (Return None, s1)
        end
    end.
Proof.
  intros Hp. unfold Media_query_get, autoflush, bind.
  now rewrite (flush_deletes s Hp).
Qed.

Lemma Media_query_get_world (i : Z) (s : State) :
  world (snd (Media_query_get i s)) = world s.
Proof.
  unfold Media_query_get, autoflush, bind.
  destruct (find_media i (identity_map s)); [reflexivity|].
  pose proof (flush_world s) as Hw.
  destruct (flush s) as [[[]|e] s1]; cbn [snd] in *; [|exact Hw].
  now destruct (find_media i (medias (txn s1))).
Qed.

(** [db.session.commit()] when the database accepts the flush. *)
Lemma db_session_commit_deletes (s : State) :
  Forall is_delete (pending s) ->
  db_session_commit s = (Return tt, commit (flushed s)).
Proof.
  intros Hp. unfold db_session_commit, bind, modify.
  now rewrite (flush_deletes s Hp).
Qed.

(** [db.session.commit()] with one INSERT outstanding and nothing loaded. *)
Lemma db_session_commit_insert (w : World) (d : Database) (c : Change) :
  db_session_commit (mkState w d [] [c]) =
    match refused d c with
    | None => (Return tt, commit (mkState w (apply_change d c) [] []))
    | Some e => (Raise e, mkState w (db w) [] [])
    end.
Proof.
  unfold db_session_commit, bind, modify, flush, flushed, rolled_back.
  cbn [pending identity_map txn world refusal fold_left filter].
  rewrite write_back_nil, with_medias_same.
  now destruct (refused d c).
Qed.

(** *** The column types *)








(** *** The order of the rows of a query *)

Lemma place_permutation {A} (pos : A -> Z) (x : A) (l : list A) :
  Permutation (place pos x l) (x :: l).
Proof.
  induction l as [|y l IH]; cbn [place]; [reflexivity|].
  destruct (pos x <=? pos y); [reflexivity|].
  rewrite IH. apply perm_swap.
Qed.

Lemma seq_scan_permutation {A} (pos : A -> Z) (rows : list A) :
  Permutation (seq_scan pos rows) rows.
Proof.
  induction rows as [|x rows IH]; cbn [seq_scan fold_right]; [reflexivity|].
  fold (seq_scan pos rows). rewrite place_permutation. now constructor.
Qed.

(** A query returns the rows of the table, each once, in some order. *)
Lemma select_permutation {A} (lib : Services) (n : nat) (table : string)
    (key : A -> Z) (rows : list A) :
  Permutation (select lib n table key rows) rows.
Proof. apply seq_scan_permutation. Qed.

Lemma select_nil {A} (lib : Services) (n : nat) (table : string)
    (key : A -> Z) :
  select lib n table key (@nil A) = [].
Proof. reflexivity. Qed.

Lemma select_first {A} (lib : Services) (n : nat) (table : string)
    (key : A -> Z) (rows : list A) :
  rows <> [] -> exists r, hd_error (select lib n table key rows) = Some r.
Proof.
  intros Hne.
  destruct (select lib n table key rows) as [|r l] eqn:E; [|now exists r].
  exfalso. apply Hne. apply Permutation_nil.
  rewrite <- E. apply select_permutation.
Qed.

(** *** The logged-in user *)

Lemma current_user_begin (w : World) :
  current_user (begin w) = (Return (logged_in w), begin w).
Proof.
  unfold current_user, logged_in; simpl.
  destruct (user_id w); [|reflexivity].
  unfold User_query_get, autoflush, bind.
  now rewrite flush_begin.
Qed.

Lemma login_required_begin (view : M Response) (w : World) :
  is_authenticated w = true ->
  login_required view (begin w) = view (begin w).
Proof.
  unfold is_authenticated, login_required, bind; intros H.
  rewrite current_user_begin. now destruct (logged_in w).
Qed.

(** *** Multi-dicts *)



(** *** The listings *)

Lemma gallery_run (lib : Services) (w : World) :
  serve (gallery lib) w =
    (render_template "gallery.html"
       (select lib (List.length (trace w)) "media" Media.id
               (gallery_listing (db w))), w).
Proof.
  unfold serve, gallery, Media_query_filter_by_is_visible, autoflush, bind.
  now rewrite flush_begin.
Qed.

Lemma manage_run (lib : Services) (w : World) :
  is_authenticated w = true ->
  serve (manage lib) w =
    (render_template "manage.html"
       (select lib (List.length (trace w)) "media" Media.id (medias (db w))),
     w).
Proof.
  intros Hauth. unfold serve, manage.
  rewrite login_required_begin by exact Hauth.
  unfold Media_query_all, autoflush, bind.
  now rewrite flush_begin.
Qed.

(** /gallery answers with the visible rows, each once, in some order. *)
Lemma gallery_lists_visible (lib : Services) (w : World) :
  exists shown,
    serve (gallery lib) w = (render_template "gallery.html" shown, w) /\
    Permutation shown (gallery_listing (db w)).
Proof.
  eexists. split; [apply gallery_run | apply select_permutation].
Qed.

(** /manage answers with all rows, each once, in some order. *)
Lemma manage_lists_all (lib : Services) (w : World) :
  is_authenticated w = true ->
  exists listed,
    serve (manage lib) w = (render_template "manage.html" listed, w) /\
    Permutation listed (medias (db w)).
Proof.
  intros Hauth. eexists.
  split; [now apply manage_run | apply select_permutation].
Qed.

Lemma in_gallery_listing (d : Database) (r : Media.t) :
  In r (gallery_listing d) <-> In r (medias d) /\ Media.is_visible r = true.
Proof.
  unfold gallery_listing. rewrite filter_In.
  now destruct (Media.is_visible r).
Qed.

Section UploadFacts.

Variable lib : Services.

(** C10: a POST to /upload without a file field, or with a file of empty
    filename, calls no remote upload and creates no Media row: the
    handler renders the upload form again and the world (tables, flashed
    messages, log of external calls) is exactly as before. *)
Theorem upload_without_file (w : World) (request : Request) :
  method request = POST ->
  (multi_get "file" (files request) = None \/
   exists file, multi_get "file" (files request) = Some file /\
                file_filename file = ""%string) ->
  serve (upload lib request) w = (render_template "upload.html" [], w).
Proof.
  intros Hm [Hnone | (file & Hfile & Hname)];
    unfold serve, upload; rewrite Hm.
  - now rewrite Hnone.
  - now rewrite Hfile, Hname.
Qed.

Lemma upload_remote_failure_run (w : World) (request : Request)
    (file : FileStorage) (e : Exception) :
  method request = POST ->
  multi_get "file" (files request) = Some file ->
  file_filename file <> ""%string ->
  uploader_upload lib (List.length (trace w)) file = Raise e ->
  db (snd (serve (upload lib request) w)) = db w.
Proof.
  intros Hm Hfile Hname Hup.
  apply String.eqb_neq in Hname.
  unfold serve, upload. rewrite Hm, Hfile, Hname; simpl.
  unfold bind at 1. rewrite current_user_begin.
  unfold bind, try_except, cloudinary_uploader_upload, tick; simpl.
  now rewrite Hup.
Qed.

(** C3: when the remote upload raises, the catalog is unchanged, the
    error message is flashed and the response redirects to the upload
    form. *)
Theorem upload_remote_failure (w : World) (request : Request)
    (file : FileStorage) (e : Exception) :
  method request = POST ->
  multi_get "file" (files request) = Some file ->
  file_filename file <> ""%string ->
  uploader_upload lib (List.length (trace w)) file = Raise e ->
  serve (upload lib request) w =
    (redirect "upload",
     mkWorld (db w) (user_id w)
             (flashes w ++ [("Upload failed: " ++ str e)%string])
             (trace w ++ [EvUpload (file_filename file)])).
Proof.
  intros Hm Hfile Hname Hup.
  apply String.eqb_neq in Hname.
  unfold serve, upload. rewrite Hm, Hfile, Hname; simpl.
  unfold bind at 1. rewrite current_user_begin.
  unfold bind, try_except, cloudinary_uploader_upload, tick; simpl.
  now rewrite Hup.
Qed.

(** What /upload does when the remote upload returns: the INSERT is
    accepted and committed, or refused and the request ends in the
    error. *)
Lemma upload_run (w : World) (request : Request)
    (file : FileStorage) (result : UploadResult) :
  method request = POST ->
  multi_get "file" (files request) = Some file ->
  file_filename file <> ""%string ->
  uploader_upload lib (List.length (trace w)) file = Return result ->
  serve (upload lib request) w =
    match refused (db w)
            (InsertMedia (file_filename file) (secure_url result)
                         (result_public_id result) (uploader_name w request)
                         (multi_get "description" (form request))
                         (Z.of_nat (List.length (file_content file)))
                         (file_mimetype file)) with
    | None =>
        (redirect "gallery",
         mkWorld
           (mkDatabase (users (db w))
                       (medias (db w) ++ [uploaded_row w request file result])
                       (user_seq (db w)) (media_seq (db w) + 1))
           (user_id w)
           (flashes w ++ ["Upload successful!"%string])
           (trace w ++ [EvUpload (file_filename file); EvCommit]))
    | Some e =>
        (error_page e,
         mkWorld (db w) (user_id w) (flashes w)
                 (trace w ++ [EvUpload (file_filename file)]))
    end.
Proof.
  intros Hm Hfile Hname Hup.
  apply String.eqb_neq in Hname.
  unfold serve, upload. rewrite Hm, Hfile, Hname; cbn [negb].
  unfold bind at 1. rewrite current_user_begin.
  unfold bind at 1, try_except, bind at 1, cloudinary_uploader_upload, tick.
  cbn [begin world]. rewrite Hup. unfold ret at 1.
  unfold bind at 1, db_session_add, add_pending, modify.
  cbn [on_world world txn identity_map pending app begin].
  unfold bind at 1. rewrite db_session_commit_insert.
  fold (uploader_name w request).
  destruct (refused (db w) _) as [e|]; [reflexivity|].
  unfold bind, flash, modify, ret, commit, uploaded_row, log.
  cbn [on_world world txn identity_map pending apply_change db user_id
       flashes trace].
  now rewrite <- app_assoc.
Qed.


End UploadFacts.

(** ** Lists of rows *)

Lemma NoDup_map_eq {A B} (f : A -> B) (l : list A) (x y : A) :
  NoDup (map f l) -> In x l -> In y l -> f x = f y -> x = y.
Proof.
  induction l as [|a l IH]; simpl; [easy|].
  intros Hnd Hx Hy Hf. inversion Hnd as [|? ? Hna Hnd']; subst.
  destruct Hx as [-> | Hx], Hy as [-> | Hy]; auto.
  - exfalso. apply Hna. rewrite Hf. now apply in_map.
  - exfalso. apply Hna. rewrite <- Hf. now apply in_map.
Qed.

(** Selecting rows keeps their keys distinct. *)
Lemma NoDup_map_filter {A B} (key : A -> B) (keep : A -> bool)
    (rows : list A) (Hkeys : NoDup (map key rows)) :
  NoDup (map key (filter keep rows)).
Proof.
  induction rows as [|a rows IH]; simpl; [constructor|].
  simpl in Hkeys. inversion Hkeys as [|? ? Hna Hnd']; subst.
  destruct (keep a); simpl; auto.
  constructor; auto.
  intros Hin. apply Hna. apply in_map_iff in Hin as (x & Hx & Hin).
  apply filter_In in Hin as [Hin _]. rewrite <- Hx. now apply in_map.
Qed.

Lemma find_app {A} (p : A -> bool) (l l' : list A) :
  find p (l ++ l') =
  match find p l with Some x => Some x | None => find p l' end.
Proof.
  induction l as [|a l IH]; simpl; [easy|].
  destruct (p a); [reflexivity | exact IH].
Qed.


Lemma filter_none {A} (p : A -> bool) (l : list A) :
  find p l = None -> filter p l = [].
Proof.
  induction l as [|a l IH]; simpl; [easy|].
  destruct (p a); [discriminate | exact IH].
Qed.

Lemma find_username_spec (name : string) (us : list User.t) (u : User.t) :
  find_username name us = Some u -> In u us /\ User.username u = name.
Proof.
  intros H. apply find_some in H as [Hin Heq].
  split; [exact Hin | now apply String.eqb_eq].
Qed.

(** Under the schema constraints, deleting the row found by its username
    (by primary key) removes exactly the rows of that username. *)
Lemma delete_found_user (d : Database) (name : string) (u : User.t) :
  db_ok d ->
  find_username name (users d) = Some u ->
  filter (fun x => negb (User.id x =? User.id u)) (users d) =
  filter (fun x => negb (User.username x =? name)%string) (users d).
Proof.
  intros (_ & Hid & Hname & _) Hfind.
  apply find_username_spec in Hfind as [Hin Hu].
  apply filter_ext_in. intros x Hx. f_equal.
  destruct (Z.eqb_spec (User.id x) (User.id u)) as [E|E],
           (String.eqb_spec (User.username x) name) as [E'|E']; auto.
  - exfalso. apply E'. rewrite <- Hu. f_equal.
    now apply (NoDup_map_eq User.id (users d)).
  - exfalso. apply E. f_equal.
    apply (NoDup_map_eq User.username (users d)); auto. congruence.
Qed.



Lemma in_filter_username (name : string) (us : list User.t) (x : User.t) :
  In x (filter (fun x => negb (User.username x =? name)%string) us) ->
  In x us /\ User.username x <> name.
Proof.
  intros H. apply filter_In in H as [Hin Hne]. split; [exact Hin|].
  apply negb_true_iff in Hne. now apply String.eqb_neq.
Qed.

Lemma filter_filter_same {A} (p : A -> bool) (l : list A) :
  filter p (filter p l) = filter p l.
Proof.
  induction l as [|a l IH]; simpl; [reflexivity|].
  destruct (p a) eqn:E; simpl; [|exact IH]. now rewrite E, IH.
Qed.

(** ** The auth routes *)

(** What flashing a message does to the world. *)
Lemma flash_run (msg : string) (s : State) :
  flash msg s =
    (Return tt,
     mkState (mkWorld (db (world s)) (user_id (world s))
                      (flashes (world s) ++ [msg]) (trace (world s)))
             (txn s) (identity_map s) (pending s)).
Proof. reflexivity. Qed.

Lemma filter_by_username_begin (name : option string) (w : World) :
  User_query_filter_by_username_first name (begin w) =
    (Return match name with
            | Some n => find_username n (users (db w))
            | None => None
            end, begin w).
Proof.
  unfold User_query_filter_by_username_first, autoflush, bind.
  now rewrite flush_begin.
Qed.


Lemma User_query_first_some (lib : Services) (w : World) :
  users (db w) <> [] ->
  exists u, User_query_first lib (begin w) = (Return (Some u), begin w).
Proof.
  intros Hne. unfold User_query_first, autoflush, bind.
  rewrite flush_begin.
  change (users (txn (begin w))) with (users (db w)).
  destruct (select_first lib (tick (begin w)) "user" User.id
              (users (db w)) Hne) as (u & ->).
  now exists u.
Qed.

Lemma with_users_same (d : Database) : with_users d (users d) = d.
Proof. destruct d; reflexivity. Qed.

Lemma filter_username_absent (name : string) (us : list User.t) :
  find_username name us = None ->
  filter (fun x => negb (User.username x =? name)%string) us = us.
Proof.
  unfold find_username. induction us as [|a us IH]; simpl; [easy|].
  destruct (User.username a =? name)%string; [discriminate|].
  intros H. simpl. f_equal. auto.
Qed.

Section AuthFacts.

Variable lib : Services.

(** What [setup] does for [name]: the rows of that username are deleted
    (and the deletion committed, when there was one); then the INSERT is
    accepted and committed, or refused and the request ends in the
    error. *)
Lemma setup_run (w : World) (request : Request) (name pw : string) :
  db_ok (db w) ->
  method request = POST ->
  nonempty (multi_get "username" (form request)) = Some name ->
  nonempty (multi_get "password" (form request)) = Some pw ->
  exists n evs,
    serve (setup lib request) w =
      let rest := filter (fun x => negb (User.username x =? name)%string)
                         (users (db w)) in
      match refused (db w)
              (InsertUser name (generate_password_hash lib n pw)) with
      | None =>
          (redirect "login",
           mkWorld
             (mkDatabase
                (rest ++ [User.mk (user_seq (db w)) name
                                  (generate_password_hash lib n pw)])
                (medias (db w)) (user_seq (db w) + 1) (media_seq (db w)))
             (user_id w)
             (flashes w ++ [("Admin '" ++ name
                             ++ "' created! You can now log in.")%string])
             (trace w ++ evs ++ [EvCommit]))
      | Some e =>
          (error_page e,
           mkWorld (with_users (db w) rest) (user_id w) (flashes w)
                   (trace w ++ evs))
      end.
Proof.
  intros Hok Hm Hu Hp.
  unfold serve, setup. rewrite Hm, Hu, Hp.
  unfold bind at 1. rewrite filter_by_username_begin.
  destruct (find_username name (users (db w))) as [ex|] eqn:Hfind.
  - exists (List.length (trace w ++ [EvCommit])), [EvCommit].
    unfold bind at 1, bind at 1, db_session_delete, add_pending, modify.
    cbn [begin world txn identity_map pending app].
    unfold db_session_commit at 1, bind at 1, flush, flushed, modify, commit.
    cbn [pending identity_map txn world refusal].
    change (refused ?d (DeleteUser ?i)) with (@None Exception).
    cbn [pending identity_map txn world fold_left apply_change filter].
    rewrite write_back_nil, with_medias_same.
    rewrite (delete_found_user _ _ _ Hok Hfind).
    unfold bind at 1, werkzeug_generate_password_hash, tick.
    cbn [world log trace].
    unfold bind at 1, db_session_add, add_pending, modify.
    cbn [world txn identity_map pending app].
    unfold bind at 1. rewrite db_session_commit_insert.
    change (refused (with_users (db w) _) ?c) with (refused (db w) c).
    cbv zeta.
    destruct (refused (db w) _) as [e|]; [reflexivity|].
    unfold bind, flash, modify, ret, commit, log.
    cbn [on_world world txn identity_map pending apply_change db user_id
         flashes trace with_users users medias user_seq media_seq].
    now rewrite <- !app_assoc.
  - exists (List.length (trace w)), [].
    unfold bind at 1, ret at 1.
    unfold bind at 1, werkzeug_generate_password_hash, tick.
    cbn [begin world].
    unfold bind at 1, db_session_add, add_pending, modify.
    cbn [begin world txn identity_map pending app].
    unfold bind at 1. rewrite db_session_commit_insert.
    cbv zeta. rewrite (filter_username_absent _ _ Hfind).
    rewrite with_users_same, app_nil_r.
    destruct (refused (db w) _) as [e|]; [now destruct w|].
    unfold bind, flash, modify, ret, commit, log.
    cbn [on_world world txn identity_map pending apply_change db user_id
         flashes trace].
    reflexivity.
Qed.

(** [setup] keeps the schema constraints. *)
Lemma setup_db_ok (d : Database) (name h : string) :
  db_ok d ->
  db_ok (mkDatabase
           (filter (fun x => negb (User.username x =? name)%string) (users d)
            ++ [User.mk (user_seq d) name h])
           (medias d) (user_seq d + 1) (media_seq d)).
Proof.
  intros (Hm & Hid & Hname & Hmseq & Huseq).
  unfold db_ok; simpl. repeat split; auto.
  - rewrite map_app; simpl.
    apply NoDup_app; repeat split.
    + now apply NoDup_map_filter.
    + repeat constructor; auto.
    + intros a Ha [<- | []].
      apply in_map_iff in Ha as (x & Hx & Hin).
      apply filter_In in Hin as [Hin _]. apply Huseq in Hin. lia.
  - rewrite map_app; simpl.
    apply NoDup_app; repeat split.
    + now apply NoDup_map_filter.
    + repeat constructor; auto.
    + intros a Ha [<- | []].
      apply in_map_iff in Ha as (x & Hx & Hin).
      apply in_filter_username in Hin as [_ Hne]. now apply Hne.
  - intros u Hu. apply in_app_iff in Hu as [Hu | [<- | []]]; simpl; [|lia].
    apply filter_In in Hu as [Hu _]. apply Huseq in Hu. lia.
Qed.

(** Deleting users keeps the schema constraints. *)
Lemma db_ok_filter_users (d : Database) (keep : User.t -> bool) :
  db_ok d -> db_ok (with_users d (filter keep (users d))).
Proof.
  intros (Hm & Hid & Hname & Hmseq & Huseq).
  unfold db_ok; simpl. repeat split; auto.
  - now apply NoDup_map_filter.
  - now apply NoDup_map_filter.
  - intros u Hu. apply filter_In in Hu as [Hu _]. now apply Huseq.
Qed.


(** What /register does for a fresh username. *)
Lemma register_run (w : World) (request : Request) (name pw : string) :
  method request = POST ->
  nonempty (multi_get "username" (form request)) = Some name ->
  nonempty (multi_get "password" (form request)) = Some pw ->
  find_username name (users (db w)) = None ->
  let hashed := generate_password_hash lib (List.length (trace w)) pw in
  serve (register lib request) w =
    match refused (db w) (InsertUser name hashed) with
    | None =>
        (redirect "login",
         mkWorld
           (mkDatabase (users (db w) ++ [User.mk (user_seq (db w)) name hashed])
                       (medias (db w))
                       (user_seq (db w) + 1) (media_seq (db w)))
           (user_id w)
           (flashes w ++ [("User '" ++ name
                           ++ "' created successfully. You can now log in.")%string])
           (trace w ++ [EvCommit]))
    | Some e => (error_page e, w)
    end.
Proof.
  intros Hm Hu Hp Hfind hashed.
  unfold serve, register. rewrite Hm, Hu, Hp.
  unfold bind at 1. rewrite filter_by_username_begin, Hfind.
  unfold bind at 1, werkzeug_generate_password_hash, tick.
  cbn [begin world]. fold hashed.
  unfold bind at 1, db_session_add, add_pending, modify.
  cbn [begin world txn identity_map pending app].
  unfold bind at 1. rewrite db_session_commit_insert.
  destruct (refused (db w) _) as [e|]; [reflexivity|].
  unfold bind, flash, modify, ret, commit, log.
  cbn [on_world world txn identity_map pending apply_change db user_id
       flashes trace].
  reflexivity.
Qed.

(** What /login does with the name of a user. *)
Lemma login_run_found (w : World) (request : Request) (name : string)
    (u : User.t) :
  method request = POST ->
  multi_get "username" (form request) = Some name ->
  find_username name (users (db w)) = Some u ->
  serve (login lib request) w =
    match multi_get "password" (form request) with
    | Some pw =>
        if check_password_hash lib (User.password u) pw
        then (redirect "manage",
              mkWorld (db w) (Some (User.id u)) (flashes w) (trace w))
        else (render_template "login.html" [],
              mkWorld (db w) (user_id w)
                      (flashes w ++ ["Invalid credentials"%string])
                      (trace w))
    | None =>
        (error_page
           (Exc "AttributeError" "'NoneType' object has no attribute 'encode'"),
         w)
    end.
Proof.
  intros Hm Hname Hfind.
  unfold serve, login.
  unfold bind at 1.
  assert (Hne : users (db w) <> []).
  { apply find_username_spec in Hfind as [Hin _].
    intros E. now rewrite E in Hin. }
  destruct (User_query_first_some lib w Hne) as (u0 & ->).
  rewrite Hm, Hname.
  unfold bind at 1. rewrite filter_by_username_begin, Hfind.
  unfold bind, werkzeug_check_password_hash, ret, raise.
  destruct (multi_get "password" (form request)) as [pw|]; [|reflexivity].
  now destruct (check_password_hash lib (User.password u) pw).
Qed.


End AuthFacts.

(** ** The media routes on one row *)

Lemma find_media_spec (i : Z) (rows : list Media.t) (m : Media.t) :
  find_media i rows = Some m -> In m rows /\ Media.id m = i.
Proof.
  intros H. apply find_some in H as [Hin Heq].
  split; [exact Hin | now apply Z.eqb_eq].
Qed.

(** With unique primary keys, a row is the one found by its key. *)
Lemma find_media_unique (rows : list Media.t) (m r : Media.t) :
  NoDup (map Media.id rows) ->
  find_media (Media.id r) rows = Some m -> In r rows -> r = m.
Proof.
  intros Hnd Hfind Hr. apply find_media_spec in Hfind as [Hm Hid].
  now apply (NoDup_map_eq Media.id rows).
Qed.

Lemma Media_query_get_begin (i : Z) (w : World) :
  Media_query_get i (begin w) =
    match find_media i (medias (db w)) with
    | Some m => (Return (Some m), mkState w (db w) [m] [])
    | None => (Return None, begin w)
    end.
Proof.
  rewrite Media_query_get_deletes by constructor. cbv zeta.
  now rewrite flushed_clean.
Qed.

(** Writing back the one object a toggle modified. *)
Lemma write_back_toggled (rows : list Media.t) (m : Media.t) :
  NoDup (map Media.id rows) ->
  find_media (Media.id m) rows = Some m ->
  write_back [toggled m] rows = toggle_row (Media.id m) rows.
Proof.
  intros Hnd Hfind. unfold write_back, toggle_row.
  apply map_ext_in. intros r Hr. unfold find_media; simpl.
  rewrite (Z.eqb_sym (Media.id m) (Media.id r)).
  destruct (Z.eqb_spec (Media.id r) (Media.id m)) as [E|E]; [|reflexivity].
  rewrite <- E in Hfind.
  now rewrite (find_media_unique rows m r Hnd Hfind Hr).
Qed.

(** Writing back changes only rows whose key belongs to a loaded object:
    a selection by key that rejects those keys does not see it. *)
Lemma filter_write_back (p : Z -> bool) (objs rows : list Media.t) :
  (forall o, In o objs -> p (Media.id o) = false) ->
  filter (fun r => p (Media.id r)) (write_back objs rows) =
  filter (fun r => p (Media.id r)) rows.
Proof.
  intros Hp. unfold write_back.
  induction rows as [|r rows IH]; [reflexivity|].
  cbn [map filter]. rewrite IH.
  destruct (find_media (Media.id r) objs) as [o|] eqn:F; [|reflexivity].
  apply find_media_spec in F as [Hin Hid].
  cbn [Media.id Media.set_is_visible].
  now rewrite <- Hid, (Hp o Hin).
Qed.

Lemma delete_row_write_back (i : Z) (m : Media.t) (rows : list Media.t) :
  Media.id m = i ->
  delete_row i (write_back [m] rows) = delete_row i rows.
Proof.
  intros Hid. unfold delete_row.
  apply (filter_write_back (fun j => negb (j =? i))).
  intros o [<- | []]. now rewrite Hid, Z.eqb_refl.
Qed.

Lemma find_media_delete_row (i : Z) (rows : list Media.t) :
  find_media i (delete_row i rows) = None.
Proof.
  unfold find_media, delete_row.
  induction rows as [|r rows IH]; simpl; [reflexivity|].
  destruct (Media.id r =? i) eqn:E; simpl; [exact IH|].
  now rewrite E.
Qed.

Section MediaFacts.

Lemma toggle_visibility_found (w : World) (i : Z) (m : Media.t) :
  is_authenticated w = true ->
  db_ok (db w) ->
  find_media i (medias (db w)) = Some m ->
  serve (toggle_visibility i) w =
    (redirect "manage",
     mkWorld (with_medias (db w) (toggle_row i (medias (db w))))
             (user_id w) (flashes w) (trace w ++ [EvCommit])).
Proof.
  intros Hauth (Hnd & _) Hfind.
  unfold serve, toggle_visibility.
  rewrite login_required_begin by exact Hauth.
  unfold bind at 1. rewrite Media_query_get_begin, Hfind.
  unfold bind at 1, bind at 1, set_is_visible, modify.
  cbn [world txn identity_map pending map].
  rewrite Z.eqb_refl, db_session_commit_deletes by constructor.
  unfold bind, ret, commit, flushed; simpl.
  destruct (find_media_spec _ _ _ Hfind) as [_ Hid].
  rewrite <- Hid in Hfind |- *.
  fold (toggled m). now rewrite write_back_toggled.
Qed.

Lemma toggle_visibility_missing (w : World) (i : Z) :
  is_authenticated w = true ->
  find_media i (medias (db w)) = None ->
  serve (toggle_visibility i) w = (redirect "manage", w).
Proof.
  intros Hauth Hfind.
  unfold serve, toggle_visibility.
  rewrite login_required_begin by exact Hauth.
  unfold bind at 1. now rewrite Media_query_get_begin, Hfind.
Qed.

Variable lib : Services.

(** C7: for an existing id, /toggle_visibility inverts the flag of that
    row, commits, and changes no other row or anything else of the
    world; for an id that no row has, nothing changes at all.  The
    gallery lists exactly the visible rows and /manage all rows (in the
    order the database returns them), so a visible row that is toggled
    was in the gallery, is in it no more, and is in the manage
    listing. *)
Theorem toggle_visibility_spec (w : World) (i : Z) :
  is_authenticated w = true ->
  db_ok (db w) ->
  let (response, w') := serve (toggle_visibility i) w in
  response = redirect "manage" /\
  ((forall r, In r (medias (db w)) -> Media.id r <> i) -> w' = w) /\
  (forall m,
     In m (medias (db w)) -> Media.id m = i ->
     w' = mkWorld (with_medias (db w) (toggle_row i (medias (db w))))
                  (user_id w) (flashes w) (trace w ++ [EvCommit]) /\
     In (toggled m) (medias (db w')) /\
     ~ In m (medias (db w')) /\
     (forall r, Media.id r <> i ->
                (In r (medias (db w')) <-> In r (medias (db w)))) /\
     (Media.is_visible m = true ->
      exists before,
        serve (gallery lib) w = (render_template "gallery.html" before, w) /\
        In m before)) /\
  (exists shown,
     serve (gallery lib) w' = (render_template "gallery.html" shown, w') /\
     (forall r, In r shown <->
                In r (medias (db w')) /\ Media.is_visible r = true) /\
     (forall m,
        In m (medias (db w)) -> Media.id m = i ->
        Media.is_visible m = true ->
        forall r, In r shown -> Media.id r <> i)) /\
  (exists listed,
     serve (manage lib) w' = (render_template "manage.html" listed, w') /\
     (forall r, In r listed <-> In r (medias (db w'))) /\
     (forall m,
        In m (medias (db w)) -> Media.id m = i -> In (toggled m) listed)).
Proof.
  intros Hauth Hok. pose proof Hok as (Hnd & _).
  assert (Hshown : forall v,
             exists shown,
               serve (gallery lib) v =
                 (render_template "gallery.html" shown, v) /\
               forall r, In r shown <->
                         In r (medias (db v)) /\ Media.is_visible r = true).
  { intros v. destruct (gallery_lists_visible lib v) as (shown & Hrun & Hperm).
    exists shown. split; [exact Hrun|].
    intros r. rewrite <- in_gallery_listing. split; intros H.
    - now apply (Permutation_in _ Hperm).
    - now apply (Permutation_in _ (Permutation_sym Hperm)). }
  assert (Hlisted : forall v,
             is_authenticated v = true ->
             exists listed,
               serve (manage lib) v =
                 (render_template "manage.html" listed, v) /\
               forall r, In r listed <-> In r (medias (db v))).
  { intros v Hv. destruct (manage_lists_all lib v Hv) as (listed & Hrun & Hperm).
    exists listed. split; [exact Hrun|].
    intros r. split; intros H.
    - now apply (Permutation_in _ Hperm).
    - now apply (Permutation_in _ (Permutation_sym Hperm)). }
  destruct (find_media i (medias (db w))) as [m0|] eqn:Hfind.
  - rewrite (toggle_visibility_found w i m0 Hauth Hok Hfind).
    set (w' := mkWorld _ _ _ _).
    destruct (find_media_spec _ _ _ Hfind) as [Hin0 Hid0].
    assert (Hsame : forall m, In m (medias (db w)) -> Media.id m = i -> m = m0).
    { intros m Hm Hid. rewrite <- Hid in Hfind.
      now apply (find_media_unique (medias (db w))). }
    assert (Hrows : forall r,
               In r (medias (db w')) <->
               r = toggled m0 \/ (In r (medias (db w)) /\ Media.id r <> i)).
    { intros r. cbn [w' db medias with_medias]. unfold toggle_row.
      rewrite in_map_iff. split.
      - intros (r0 & Hr0 & Hin). destruct (Z.eqb_spec (Media.id r0) i) as [E|E].
        + left. now rewrite <- Hr0, (Hsame r0 Hin E).
        + right. subst r. now split.
      - intros [-> | [Hin Hne]].
        + exists m0. split; [|exact Hin0].
          apply Z.eqb_eq in Hid0. now rewrite Hid0.
        + exists r. split; [|exact Hin].
          apply Z.eqb_neq in Hne. now rewrite Hne. }
    assert (Hauth' : is_authenticated w' = true) by exact Hauth.
    split; [reflexivity|]. split; [|split; [|split]].
    + intros Hnone. exfalso. now apply (Hnone m0 Hin0).
    + intros m Hm Hid. rewrite (Hsame m Hm Hid).
      split; [reflexivity|]. split; [apply Hrows; now left|].
      split; [|split].
      * intros H. apply Hrows in H as [H | [_ H]]; [|contradiction].
        apply (f_equal Media.is_visible) in H.
        unfold toggled in H; cbn [Media.is_visible Media.set_is_visible] in H.
        now destruct (Media.is_visible m0).
      * intros r Hne. rewrite Hrows. split.
        -- intros [-> | [H _]]; [|exact H].
           exfalso. apply Hne. exact Hid0.
        -- intros H. right. now split.
      * intros Hvis. destruct (Hshown w) as (before & Hrun & Hbefore).
        exists before. split; [exact Hrun|]. apply Hbefore. now split.
    + destruct (Hshown w') as (shown & Hrun & Hin).
      exists shown. split; [exact Hrun|]. split; [exact Hin|].
      intros m Hm Hid Hvis r Hr. apply Hin in Hr as [Hr Hv].
      apply Hrows in Hr as [-> | [_ Hne]]; [|exact Hne].
      exfalso. rewrite (Hsame m Hm Hid) in Hvis.
      unfold toggled in Hv; cbn [Media.is_visible Media.set_is_visible] in Hv.
      rewrite Hvis in Hv. discriminate.
    + destruct (Hlisted w' Hauth') as (listed & Hrun & Hin).
      exists listed. split; [exact Hrun|]. split; [exact Hin|].
      intros m Hm Hid. apply Hin, Hrows. left. now rewrite (Hsame m Hm Hid).
  - rewrite (toggle_visibility_missing w i Hauth Hfind).
    assert (Hnone : forall m, In m (medias (db w)) -> Media.id m <> i).
    { intros m Hm Hid.
      pose proof (find_none _ _ Hfind m Hm) as H. simpl in H.
      apply Z.eqb_neq in H. contradiction. }
    split; [reflexivity|]. split; [|split; [|split]].
    + reflexivity.
    + intros m Hm Hid. exfalso. now apply (Hnone m Hm).
    + destruct (Hshown w) as (shown & Hrun & Hin).
      exists shown. split; [exact Hrun|]. split; [exact Hin|].
      intros m Hm Hid. exfalso. now apply (Hnone m Hm).
    + destruct (Hlisted w Hauth) as (listed & Hrun & Hin).
      exists listed. split; [exact Hrun|]. split; [exact Hin|].
      intros m Hm Hid. exfalso. now apply (Hnone m Hm).
Qed.

(** What /delete does, by the outcome of the destroy call. *)
Lemma delete_run (w : World) (i : Z) (m : Media.t) :
  is_authenticated w = true ->
  find_media i (medias (db w)) = Some m ->
  serve (delete lib i) w =
    match uploader_destroy lib (List.length (trace w)) (Media.public_id m) with
    | Return _ =>
        (redirect "manage",
         mkWorld (with_medias (db w) (delete_row i (medias (db w))))
                 (user_id w)
                 (flashes w ++ ["Deleted successfully"%string])
                 (trace w ++ [EvDestroy (Media.public_id m); EvDelete m;
                              EvCommit]))
    | Raise e =>
        (error_page e,
         mkWorld (db w) (user_id w) (flashes w)
                 (trace w ++ [EvDestroy (Media.public_id m)]))
    end.
Proof.
  intros Hauth Hfind.
  unfold serve, delete.
  rewrite login_required_begin by exact Hauth.
  unfold bind at 1. rewrite Media_query_get_begin, Hfind.
  unfold bind at 1, bind at 1, cloudinary_uploader_destroy, tick.
  cbn [world].
  destruct (uploader_destroy lib (List.length (trace w)) (Media.public_id m));
    [|reflexivity].
  unfold bind at 1, db_session_delete, bind at 1, emit, add_pending, modify.
  cbn [on_world world txn identity_map pending app].
  unfold bind at 1.
  rewrite db_session_commit_deletes by (now repeat constructor).
  unfold bind, flash, modify, ret, commit, flushed; simpl.
  destruct (find_media_spec _ _ _ Hfind) as [_ Hid].
  fold (delete_row (Media.id m) (write_back [m] (medias (db w)))).
  rewrite delete_row_write_back by reflexivity.
  rewrite Hid. unfold log; simpl.
  now rewrite <- !app_assoc.
Qed.

Lemma delete_missing (w : World) (i : Z) :
  is_authenticated w = true ->
  find_media i (medias (db w)) = None ->
  serve (delete lib i) w = (redirect "manage", w).
Proof.
  intros Hauth Hfind.
  unfold serve, delete.
  rewrite login_required_begin by exact Hauth.
  unfold bind at 1. now rewrite Media_query_get_begin, Hfind.
Qed.

(** C1, as the code has it: /delete removes the local row only if the
    destroy call returns, whatever result it reports; if the destroy
    call raises, the request ends in the error response and the catalog
    is unchanged. *)
Theorem delete_aborts_when_destroy_raises (w : World) (i : Z) (m : Media.t) :
  is_authenticated w = true ->
  find_media i (medias (db w)) = Some m ->
  let outcome :=
    uploader_destroy lib (List.length (trace w)) (Media.public_id m) in
  let (response, w') := serve (delete lib i) w in
  (forall e, outcome = Raise e ->
             response = error_page e /\ db w' = db w) /\
  (forall r, outcome = Return r ->
             response = redirect "manage" /\
             medias (db w') = delete_row i (medias (db w)) /\
             find_media i (medias (db w')) = None) /\
  (find_media i (medias (db w')) = None -> exists r, outcome = Return r).
Proof.
  intros Hauth Hfind outcome.
  rewrite (delete_run w i m Hauth Hfind). fold outcome.
  pose proof (find_media_delete_row i (medias (db w))) as Hgone.
  destruct outcome as [r|e]; simpl.
  - split; [discriminate|]. split; [|eauto].
    intros r' _. now repeat split.
  - split; [|split].
    + intros e' [= <-]. now split.
    + discriminate.
    + rewrite Hfind. discriminate.
Qed.

End MediaFacts.

(** ** Loops *)

(** An invariant [I], indexed by the part of the list already visited,
    holds after a [for] loop that returns; [E] holds of the exception and
    state of a loop that raises. *)
Lemma for_fold_rule {A B} (body : B -> A -> M B)
    (I : list A -> B -> State -> Prop) (E : Exception -> State -> Prop)
    (l : list A) :
  (forall pre x acc s,
     In x l ->
     I pre acc s ->
     match body acc x s with
     | (Return acc', s') => I (pre ++ [x]) acc' s'
     | (Raise e, s') => E e s'
     end) ->
  forall pre acc s,
    I pre acc s ->
    match for_fold l acc body s with
    | (Return acc', s') => I (pre ++ l) acc' s'
    | (Raise e, s') => E e s'
    end.
Proof.
  induction l as [|x l IH]; intros Hstep pre acc s HI; simpl.
  - unfold ret. now rewrite app_nil_r.
  - unfold bind. pose proof (Hstep pre x acc s (or_introl eq_refl) HI) as Hx.
    destruct (body acc x s) as [[acc'|e] s']; [|exact Hx].
    assert (Hstep' : forall pre x acc s,
               In x l -> I pre acc s ->
               match body acc x s with
               | (Return acc', s') => I (pre ++ [x]) acc' s'
               | (Raise e, s') => E e s'
               end) by (intros; apply Hstep; simpl; auto).
    specialize (IH Hstep' (pre ++ [x]) acc' s' Hx).
    now rewrite <- app_assoc in IH.
Qed.

(** ** The identity map under attribute changes *)

Lemma filter_all {A} (l : list A) : filter (fun _ => true) l = l.
Proof. induction l as [|a l IH]; simpl; [reflexivity | now rewrite IH]. Qed.

Lemma find_media_map (f : Media.t -> Media.t) (i : Z) (l : list Media.t) :
  (forall o, Media.id (f o) = Media.id o) ->
  find_media i (map f l) = option_map f (find_media i l).
Proof.
  intros Hf. unfold find_media.
  induction l as [|a l IH]; simpl; [reflexivity|].
  rewrite Hf. destruct (Media.id a =? i); [reflexivity | exact IH].
Qed.

Lemma find_media_none (i : Z) (l : list Media.t) (r : Media.t) :
  find_media i l = None -> In r l -> Media.id r <> i.
Proof.
  intros Hnone Hin Hid.
  pose proof (find_none _ _ Hnone r Hin) as H. simpl in H.
  apply Z.eqb_neq in H. contradiction.
Qed.

Lemma write_back_ids (objs rows : list Media.t) :
  map Media.id (write_back objs rows) = map Media.id rows.
Proof.
  unfold write_back. rewrite map_map. apply map_ext. intros r.
  now destruct (find_media (Media.id r) objs).
Qed.

Lemma write_back_twice (objs rows : list Media.t) :
  write_back objs (write_back objs rows) = write_back objs rows.
Proof.
  unfold write_back. rewrite map_map. apply map_ext. intros r.
  destruct (find_media (Media.id r) objs) as [o|] eqn:F;
    cbn [Media.id Media.set_is_visible]; rewrite F; reflexivity.
Qed.

(** Flushing a session that only holds attribute changes. *)
Lemma flushed_view (s : State) :
  pending s = [] ->
  flushed s =
    mkState (world s) (with_medias (txn s) (view s)) (identity_map s) [].
Proof.
  intros Hp. unfold flushed, view. rewrite Hp. cbn [fold_left marked existsb negb].
  now rewrite filter_all.
Qed.

(** Loading one more row does not change the view, when keys are unique. *)
Lemma write_back_loaded (objs rows : list Media.t) (m : Media.t) :
  NoDup (map Media.id rows) ->
  In m (write_back objs rows) ->
  write_back (objs ++ [m]) (write_back objs rows) = write_back objs rows.
Proof.
  intros Hnd Hm.
  rewrite <- (write_back_ids objs rows) in Hnd.
  rewrite <- (write_back_twice objs rows) at 2.
  set (V := write_back objs rows) in *.
  unfold write_back. apply map_ext_in. intros r Hr.
  unfold find_media. rewrite find_app.
  fold (find_media (Media.id r) objs).
  destruct (find_media (Media.id r) objs) as [o|]; [reflexivity|].
  cbn [find]. destruct (Z.eqb_spec (Media.id m) (Media.id r)) as [E|E];
    [|reflexivity].
  rewrite (NoDup_map_eq Media.id V m r Hnd Hm Hr E).
  apply set_is_visible_same.
Qed.

(** [Media.query.get] in a session that only holds attribute changes:
    the view is unchanged, and an object returned is in the identity map
    and carries the flag the view has for its key. *)
Lemma Media_query_get_view (i : Z) (s : State) :
  pending s = [] ->
  NoDup (map Media.id (medias (txn s))) ->
  exists o s',
    Media_query_get i s = (Return o, s') /\
    world s' = world s /\
    pending s' = [] /\
    (forall rows, with_medias (txn s') rows = with_medias (txn s) rows) /\
    NoDup (map Media.id (medias (txn s'))) /\
    view s' = view s /\
    match o with
    | None => find_media i (view s) = None
    | Some m =>
        find_media i (identity_map s') = Some m /\
        forall r, In r (view s) -> Media.id r = i ->
                  Media.is_visible r = Media.is_visible m
    end.
Proof.
  intros Hp Hnd.
  rewrite Media_query_get_deletes by (rewrite Hp; constructor). cbv zeta.
  destruct (find_media i (identity_map s)) as [m|] eqn:Hhit.
  - exists (Some m), s. repeat split; auto.
    intros r Hr Hid. unfold view, write_back in Hr.
    apply in_map_iff in Hr as (r0 & <- & _).
    cbn [Media.id] in Hid.
    assert (Hid0 : Media.id r0 = i).
    { destruct (find_media (Media.id r0) (identity_map s)); exact Hid. }
    rewrite Hid0, Hhit. reflexivity.
  - rewrite (flushed_view s Hp). cbn [txn medias with_medias identity_map world pending].
    destruct (find_media i (view s)) as [m|] eqn:Hrow.
    + exists (Some m). eexists. split; [reflexivity|].
      cbn [world pending txn identity_map medias with_medias users user_seq media_seq].
      destruct (find_media_spec _ _ _ Hrow) as [Hin Hid].
      repeat split; auto.
      * unfold view. now rewrite write_back_ids.
      * unfold view at 1. cbn [identity_map txn medias].
        unfold view in *. now apply write_back_loaded.
      * unfold find_media. rewrite find_app.
        fold (find_media i (identity_map s)). rewrite Hhit.
        cbn [find]. apply Z.eqb_eq in Hid. now rewrite Hid.
      * intros r Hr Hr_id.
        assert (Hnd' : NoDup (map Media.id (view s))).
        { unfold view. now rewrite write_back_ids. }
        rewrite <- Hr_id in Hrow.
        now rewrite (find_media_unique _ _ _ Hnd' Hrow Hr).
    + exists None. eexists. split; [reflexivity|].
      cbn [world pending txn identity_map medias with_medias users user_seq media_seq].
      repeat split; auto.
      * unfold view. now rewrite write_back_ids.
      * unfold view at 1. cbn [identity_map txn medias].
        unfold view. apply write_back_twice.
Qed.

(** The attribute assignment, seen in the view. *)
Lemma set_is_visible_view (m : Media.t) (b : bool) (s : State) :
  find_media (Media.id m) (identity_map s) = Some m ->
  view (snd (set_is_visible m b s)) =
  map (fun r => if Media.id r =? Media.id m
                then Media.set_is_visible r b else r) (view s).
Proof.
  intros Hm. unfold set_is_visible, modify, view; cbn [snd identity_map txn].
  unfold write_back. rewrite map_map. apply map_ext. intros r.
  rewrite find_media_map by (intros o; now destruct (Media.id o =? Media.id m)).
  destruct (Z.eqb_spec (Media.id r) (Media.id m)) as [E|E].
  - rewrite E, Hm. cbn [option_map Media.id Media.set_is_visible].
    now rewrite E, !Z.eqb_refl.
  - destruct (find_media (Media.id r) (identity_map s)) as [o|] eqn:F;
      cbn [option_map Media.id Media.set_is_visible].
    + destruct (find_media_spec _ _ _ F) as [_ Ho].
      apply Z.eqb_neq in E. now rewrite Ho, E.
    + apply Z.eqb_neq in E. now rewrite E.
Qed.

Lemma toggle_body_view (i : Z) (s : State) :
  pending s = [] ->
  NoDup (map Media.id (medias (txn s))) ->
  exists s',
    toggle_body i s = (Return tt, s') /\
    world s' = world s /\
    pending s' = [] /\
    (forall rows, with_medias (txn s') rows = with_medias (txn s) rows) /\
    NoDup (map Media.id (medias (txn s'))) /\
    view s' = toggle_row i (view s).
Proof.
  intros Hp Hnd.
  destruct (Media_query_get_view i s Hp Hnd)
    as (o & s1 & Hget & Hw & Hp1 & Htx & Hnd1 & Hview & Ho).
  unfold toggle_body, bind. rewrite Hget.
  destruct o as [m|].
  - destruct Ho as [Hm Hvis].
    destruct (find_media_spec _ _ _ Hm) as [_ Hid].
    exists (snd (set_is_visible m (negb (Media.is_visible m)) s1)).
    split; [reflexivity|]. repeat split; auto.
    rewrite <- Hid in Hm.
    rewrite (set_is_visible_view m _ s1 Hm), Hview, Hid.
    unfold toggle_row. apply map_ext_in. intros r Hr.
    destruct (Z.eqb_spec (Media.id r) i) as [E|E]; [|reflexivity].
    unfold toggled. now rewrite (Hvis r Hr E).
  - exists s1. split; [reflexivity|]. repeat split; auto.
    rewrite Hview. unfold toggle_row.
    rewrite <- (map_id (view s)) at 1. apply map_ext_in. intros r Hr.
    pose proof (find_media_none i _ r Ho Hr) as Hne.
    apply Z.eqb_neq in Hne. now rewrite Hne.
Qed.

(** Inverting per occurrence, one key after the other. *)
Lemma toggled_twice (r : Media.t) : toggled (toggled r) = r.
Proof. destruct r; unfold toggled; simpl. now rewrite negb_involutive. Qed.

Lemma toggle_rows_snoc (ids : list Z) (i : Z) (rows : list Media.t) :
  toggle_row i (toggle_rows ids rows) = toggle_rows (ids ++ [i]) rows.
Proof.
  unfold toggle_row, toggle_rows. rewrite map_map. apply map_ext. intros r.
  rewrite count_occ_app. cbn [count_occ].
  assert (Hid : Media.id (if Nat.odd (count_occ Z.eq_dec ids (Media.id r))
                          then toggled r else r) = Media.id r)
    by (now destruct (Nat.odd _)).
  rewrite Hid.
  destruct (Z.eq_dec i (Media.id r)) as [E|E].
  - subst i. rewrite Z.eqb_refl.
    replace (count_occ Z.eq_dec ids (Media.id r) + 1)%nat
      with (S (count_occ Z.eq_dec ids (Media.id r))) by lia.
    rewrite Nat.odd_succ, <- Nat.negb_odd.
    destruct (Nat.odd _); simpl; [apply toggled_twice | reflexivity].
  - assert (E' : (Media.id r =? i) = false) by (apply Z.eqb_neq; congruence).
    rewrite E', Nat.add_0_r. reflexivity.
Qed.

Lemma toggle_rows_nil (rows : list Media.t) : toggle_rows [] rows = rows.
Proof. unfold toggle_rows; simpl. apply map_id. Qed.

(** ** bulk_toggle_visibility *)

(** [request.get_json()] returns the parsed body where there is one, and
    raises otherwise. *)
Lemma get_json_some (request : Request) (data : list (string * list Z)) :
  json request = Some data -> get_json request = ret data.
Proof.
  unfold json, get_json. destruct (body request); try discriminate.
  now intros [= ->].
Qed.

Lemma get_json_none (request : Request) :
  json request = None -> exists e, get_json request = raise e.
Proof.
  unfold json, get_json. destruct (body request); try discriminate; eauto.
Qed.

Lemma bulk_toggle_loop (w : World) (ids : list Z) :
  NoDup (map Media.id (medias (db w))) ->
  exists s',
    for_each ids toggle_body (begin w) = (Return tt, s') /\
    world s' = w /\
    pending s' = [] /\
    (forall rows, with_medias (txn s') rows = with_medias (db w) rows) /\
    view s' = toggle_rows ids (medias (db w)).
Proof.
  intros Hnd.
  set (I := fun (pre : list Z) (_ : unit) (s : State) =>
              world s = w /\
              pending s = [] /\
              (forall rows, with_medias (txn s) rows = with_medias (db w) rows) /\
              NoDup (map Media.id (medias (txn s))) /\
              view s = toggle_rows pre (medias (db w))).
  assert (Hstep : forall pre x acc s,
             In x ids ->
             I pre acc s ->
             match toggle_body x s with
             | (Return acc', s') => I (pre ++ [x]) acc' s'
             | (Raise e, s') => False
             end).
  { intros pre x acc s _ (Hw & Hp & Htx & Hnd' & Hview).
    destruct (toggle_body_view x s Hp Hnd')
      as (s' & Hrun & Hw' & Hp' & Htx' & Hnd'' & Hview').
    rewrite Hrun. repeat split.
    - congruence.
    - exact Hp'.
    - intros rows. now rewrite Htx'.
    - exact Hnd''.
    - now rewrite Hview', Hview, toggle_rows_snoc. }
  assert (Hinit : I [] tt (begin w)).
  { repeat split; auto;
      unfold view; simpl; now rewrite write_back_nil, toggle_rows_nil. }
  pose proof (for_fold_rule (fun _ x => toggle_body x) I (fun _ _ => False)
                ids Hstep [] tt (begin w) Hinit) as H.
  unfold for_each.
  destruct (for_fold ids tt (fun _ x => toggle_body x) (begin w))
    as [[[]|e] s']; [|contradiction].
  destruct H as (Hw & Hp & Htx & _ & Hview).
  exists s'. now repeat split.
Qed.

Lemma count_occ_NoDup (ids : list Z) (i : Z) :
  NoDup ids ->
  count_occ Z.eq_dec ids i = if in_dec Z.eq_dec i ids then 1%nat else 0%nat.
Proof.
  intros Hnd. destruct (in_dec Z.eq_dec i ids) as [Hin|Hin].
  - apply (proj1 (NoDup_count_occ' Z.eq_dec ids) Hnd i Hin).
  - now apply count_occ_not_In.
Qed.

(** What /bulk_toggle_visibility does. *)
Lemma bulk_toggle_visibility_run (w : World) (request : Request)
    (data : list (string * list Z)) :
  is_authenticated w = true ->
  NoDup (map Media.id (medias (db w))) ->
  json request = Some data ->
  serve (bulk_toggle_visibility request) w =
    (success,
     mkWorld (with_medias (db w)
                (toggle_rows (multi_get_default "media_ids" [] data)
                             (medias (db w))))
             (user_id w) (flashes w) (trace w ++ [EvCommit])).
Proof.
  intros Hauth Hnd Hjson.
  set (media_ids := multi_get_default "media_ids" [] data).
  unfold serve, bulk_toggle_visibility.
  rewrite login_required_begin by exact Hauth.
  unfold bind at 1. rewrite (get_json_some _ _ Hjson). unfold ret at 1.
  fold media_ids.
  destruct (bulk_toggle_loop w media_ids Hnd)
    as (s' & Hrun & Hw & Hp & Htx & Hview).
  unfold bind at 1.
  change (for_each media_ids _ (begin w))
    with (for_each media_ids toggle_body (begin w)).
  rewrite Hrun.
  unfold bind at 1.
  rewrite db_session_commit_deletes by (rewrite Hp; constructor).
  unfold ret, commit.
  rewrite (flushed_view s' Hp).
  cbn [world txn identity_map pending].
  rewrite Hw, Hview, Htx. reflexivity.
Qed.

(** C8, as the code has it: /bulk_toggle_visibility inverts the flag of a
    row once per occurrence of its id in [media_ids], so a row ends up
    inverted exactly when its id occurs an odd number of times; when the
    list has no repetition, exactly the rows whose id is listed are
    inverted.  Ids without a row change nothing and raise no error, there
    is one commit, and the answer is the JSON acknowledgement. *)
Theorem bulk_toggle_visibility_spec (w : World) (request : Request)
    (data : list (string * list Z)) :
  is_authenticated w = true ->
  db_ok (db w) ->
  json request = Some data ->
  let media_ids := multi_get_default "media_ids" [] data in
  serve (bulk_toggle_visibility request) w =
    (success,
     mkWorld (with_medias (db w) (toggle_rows media_ids (medias (db w))))
             (user_id w) (flashes w) (trace w ++ [EvCommit])) /\
  (forall r, In r (medias (db w)) ->
             ~ In (Media.id r) media_ids ->
             In r (toggle_rows media_ids (medias (db w)))) /\
  (NoDup media_ids ->
   toggle_rows media_ids (medias (db w)) =
   map (fun r => if in_dec Z.eq_dec (Media.id r) media_ids
                 then toggled r else r) (medias (db w))).
Proof.
  intros Hauth (Hnd & _) Hjson media_ids. split; [|split].
  - now apply bulk_toggle_visibility_run.
  - intros r Hr Hout. unfold toggle_rows. apply in_map_iff. exists r.
    split; [|exact Hr].
    apply (count_occ_not_In Z.eq_dec) in Hout. now rewrite Hout.
  - intros Hids. unfold toggle_rows. apply map_ext. intros r.
    rewrite (count_occ_NoDup _ _ Hids).
    now destruct (in_dec Z.eq_dec (Media.id r) media_ids).
Qed.

(** ** download_selected *)

(** Objects loaded and never modified are the rows themselves: writing
    them back changes nothing. *)
Lemma write_back_clean (objs rows : list Media.t) :
  NoDup (map Media.id rows) ->
  (forall o, In o objs -> In o rows) ->
  write_back objs rows = rows.
Proof.
  intros Hnd Hobjs. unfold write_back.
  rewrite <- (map_id rows) at 2. apply map_ext_in. intros r Hr.
  destruct (find_media (Media.id r) objs) as [o|] eqn:F; [|reflexivity].
  apply find_media_spec in F as [Ho Hid].
  rewrite (NoDup_map_eq Media.id rows o r Hnd (Hobjs o Ho) Hr Hid).
  apply set_is_visible_same.
Qed.

Lemma find_media_in (rows : list Media.t) (m : Media.t) :
  NoDup (map Media.id rows) -> In m rows ->
  find_media (Media.id m) rows = Some m.
Proof.
  intros Hnd Hin.
  destruct (find_media (Media.id m) rows) as [m'|] eqn:F.
  - f_equal. symmetry. now apply (find_media_unique rows m' m).
  - exfalso. now apply (find_media_none _ _ m F Hin).
Qed.

(** [Media.query.get] in a session that has modified nothing returns the
    row of the table. *)
Lemma Media_query_get_clean (i : Z) (s : State) :
  NoDup (map Media.id (medias (txn s))) ->
  pending s = [] ->
  (forall o, In o (identity_map s) -> In o (medias (txn s))) ->
  exists objs,
    Media_query_get i s =
      (Return (find_media i (medias (txn s))),
       mkState (world s) (txn s) objs []) /\
    (forall o, In o objs -> In o (medias (txn s))).
Proof.
  intros Hnd Hp Hobjs.
  rewrite Media_query_get_deletes by (rewrite Hp; constructor). cbv zeta.
  destruct (find_media i (identity_map s)) as [m|] eqn:Hhit.
  - exists (identity_map s). split; [|exact Hobjs].
    apply find_media_spec in Hhit as [Hin Hid].
    rewrite <- Hid, (find_media_in _ _ Hnd (Hobjs m Hin)).
    destruct s; simpl in *. now subst.
  - rewrite (flushed_view s Hp). unfold view.
    rewrite (write_back_clean _ _ Hnd Hobjs), with_medias_same.
    cbn [txn world identity_map pending].
    destruct (find_media i (medias (txn s))) as [m|] eqn:Hrow.
    + exists (identity_map s ++ [m]). split; [reflexivity|].
      intros o Ho. apply in_app_iff in Ho as [Ho | [<- | []]]; auto.
      now apply find_media_spec in Hrow.
    + exists (identity_map s). now split.
Qed.

Lemma entries_from_snoc (fetch : nat -> string -> list byte) (n : nat)
    (ms : list Media.t) (m : Media.t) :
  entries_from fetch n (ms ++ [m]) =
  entries_from fetch n ms
  ++ [(Media.filename m, fetch (n + List.length ms)%nat (Media.url m))].
Proof.
  revert n. induction ms as [|a ms IH]; intros n; simpl.
  - now rewrite Nat.add_0_r.
  - rewrite IH. now rewrite Nat.add_succ_r.
Qed.

Lemma selected_rows_snoc (ids : list Z) (i : Z) (rows : list Media.t) :
  selected_rows (ids ++ [i]) rows =
  selected_rows ids rows
  ++ match find_media i rows with Some m => [m] | None => [] end.
Proof.
  unfold selected_rows. rewrite flat_map_app; simpl. now rewrite app_nil_r.
Qed.

Lemma in_selected_rows (ids : list Z) (rows : list Media.t) (m : Media.t) :
  NoDup (map Media.id rows) ->
  In m (selected_rows ids rows) <-> In m rows /\ In (Media.id m) ids.
Proof.
  intros Hnd. unfold selected_rows. rewrite in_flat_map. split.
  - intros (i & Hi & Hm).
    destruct (find_media i rows) as [m'|] eqn:F; [|contradiction].
    destruct Hm as [<- | []].
    apply find_media_spec in F as [Hin Hid]. split; [exact Hin | congruence].
  - intros [Hin Hid]. exists (Media.id m). split; [exact Hid|].
    rewrite (find_media_in _ _ Hnd Hin). now left.
Qed.

Lemma NoDup_selected_rows (ids : list Z) (rows : list Media.t) :
  NoDup (map Media.id rows) -> NoDup ids -> NoDup (selected_rows ids rows).
Proof.
  intros Hnd Hids. induction Hids as [|i ids Hi Hids IH].
  - constructor.
  - change (selected_rows (i :: ids) rows)
      with (match find_media i rows with Some m => [m] | None => [] end
            ++ selected_rows ids rows).
    destruct (find_media i rows) as [m|] eqn:F; [|exact IH].
    simpl. constructor; [|exact IH].
    intros Hin. apply (in_selected_rows ids rows m Hnd) in Hin as [_ Hin].
    apply find_media_spec in F as [_ Hid]. congruence.
Qed.

Lemma entries_from_names (fetch : nat -> string -> list byte) (n : nat)
    (ms : list Media.t) :
  map fst (entries_from fetch n ms) = map Media.filename ms.
Proof.
  revert n. induction ms as [|m ms IH]; intros n; simpl; [reflexivity|].
  now rewrite IH.
Qed.

Lemma entries_from_length (fetch : nat -> string -> list byte) (n : nat)
    (ms : list Media.t) :
  List.length (entries_from fetch n ms) = List.length ms.
Proof.
  revert n. induction ms as [|m ms IH]; intros n; simpl; [reflexivity|].
  now rewrite IH.
Qed.

Lemma entries_from_nth (fetch : nat -> string -> list byte) (n k : nat)
    (ms : list Media.t) (m : Media.t) :
  nth_error ms k = Some m ->
  nth_error (entries_from fetch n ms) k =
    Some (Media.filename m, fetch (n + k)%nat (Media.url m)).
Proof.
  revert n k. induction ms as [|a ms IH]; intros n k; destruct k; simpl;
    try discriminate.
  - intros [= ->]. now rewrite Nat.add_0_r.
  - intros H. rewrite (IH (S n) k H). now rewrite Nat.add_succ_r.
Qed.

Section DownloadFacts.

Variable lib : Services.

(** The loop of /download_selected over values that are integers, when
    the downloads it makes return: the archive gains an entry per row
    found, and the log a download. *)
Lemma download_loop (parse : string -> Z) (selected : list string) :
  forall (s : State) (zf : list (string * list byte)),
    NoDup (map Media.id (medias (txn s))) ->
    pending s = [] ->
    (forall o, In o (identity_map s) -> In o (medias (txn s))) ->
    (forall x, In x selected -> int lib x = Return (parse x)) ->
    (forall k m,
       nth_error (selected_rows (map parse selected) (medias (txn s))) k =
         Some m ->
       exists content,
         requests_get lib (tick s + k) (Media.url m) = Return content) ->
    exists objs,
      for_fold selected zf (download_body lib) s =
        (Return (zf ++ entries_from (fetched lib) (tick s)
                         (selected_rows (map parse selected)
                                        (medias (txn s)))),
         mkState (mkWorld (db (world s)) (user_id (world s))
                          (flashes (world s))
                          (trace (world s)
                           ++ map (fun m => EvGet (Media.url m))
                                  (selected_rows (map parse selected)
                                                 (medias (txn s)))))
                 (txn s) objs []) /\
      (forall o, In o objs -> In o (medias (txn s))).
Proof.
  induction selected as [|x xs IH]; intros s zf Hnd Hp Hobjs Hparse Hfetch.
  - exists (identity_map s). split; [|exact Hobjs].
    cbn [for_fold map selected_rows flat_map entries_from]. unfold ret.
    rewrite !app_nil_r. destruct s as [[d u f t] tx idm p].
    cbn in Hp |- *. now subst p.
  - cbn [for_fold]. unfold bind at 1, download_body at 1, bind at 1, py_int.
    rewrite (Hparse x (or_introl eq_refl)).
    destruct (Media_query_get_clean (parse x) s Hnd Hp Hobjs)
      as (objs & Hget & Hobjs').
    unfold bind at 1. rewrite Hget.
    change (selected_rows (map parse (x :: xs)) (medias (txn s)))
      with (match find_media (parse x) (medias (txn s)) with
            | Some m => [m]
            | None => []
            end ++ selected_rows (map parse xs) (medias (txn s))) in *.
    assert (Hparse' : forall y, In y xs -> int lib y = Return (parse y))
      by (intros y Hy; apply Hparse; now right).
    destruct (find_media (parse x) (medias (txn s))) as [m|].
    + destruct (Hfetch 0%nat m eq_refl) as (content & Hc).
      rewrite Nat.add_0_r in Hc.
      unfold bind at 1, requests_get_content, tick at 1.
      cbn [world]. fold (tick s). rewrite Hc. unfold ret at 1.
      set (s1 := on_world (log (EvGet (Media.url m)))
                          (mkState (world s) (txn s) objs [])).
      assert (Htick : tick s1 = S (tick s)).
      { unfold tick, s1, on_world, log; cbn [world trace].
        rewrite length_app. cbn [List.length]. lia. }
      destruct (IH s1 (zf ++ [(Media.filename m, content)]))
        as (objs1 & Hrun & Hobjs1); auto.
      { intros k m' Hk. rewrite Htick.
        replace (S (tick s) + k)%nat with (tick s + S k)%nat by lia.
        now apply Hfetch. }
      exists objs1. split; [|exact Hobjs1].
      rewrite Hrun, Htick. cbn [app entries_from map].
      unfold fetched at 2. rewrite Hc. cbn [content_of].
      unfold s1, on_world, log.
      cbn [world txn db user_id flashes trace].
      now rewrite <- !app_assoc.
    + unfold ret at 1.
      set (s1 := mkState (world s) (txn s) objs []).
      destruct (IH s1 zf) as (objs1 & Hrun & Hobjs1); auto.
      exists objs1. split; [|exact Hobjs1].
      now rewrite Hrun.
Qed.

(** C9, as the code has it: when every selected id is an integer and
    every download the request makes returns, /download_selected answers
    with the attachment selected_media.zip holding, in the order of
    selection, one entry per occurrence of a selected id whose row
    exists, named by the stored filename and holding the bytes fetched
    from the row's URL; ids without a row add no entry and nothing is
    written to the tables.  When no id is selected twice, that is
    exactly one entry for every selected row that exists. *)
Theorem download_selected_spec (w : World) (request : Request)
    (parse : string -> Z) :
  is_authenticated w = true ->
  db_ok (db w) ->
  let selected := getlist "media_ids" (form request) in
  selected <> [] ->
  (forall x, In x selected -> int lib x = Return (parse x)) ->
  let found := selected_rows (map parse selected) (medias (db w)) in
  (forall k m,
     nth_error found k = Some m ->
     exists content,
       requests_get lib (List.length (trace w) + k) (Media.url m) =
         Return content) ->
  exists archive,
    serve (download_selected lib request) w =
      (send_file archive "selected_media.zip" true,
       mkWorld (db w) (user_id w) (flashes w)
               (trace w ++ map (fun m => EvGet (Media.url m)) found)) /\
    List.length archive = List.length found /\
    (forall k m,
       nth_error found k = Some m ->
       exists content,
         requests_get lib (List.length (trace w) + k) (Media.url m) =
           Return content /\
         nth_error archive k = Some (Media.filename m, content)) /\
    (NoDup (map parse selected) ->
     NoDup found /\
     forall m, In m found <->
               In m (medias (db w)) /\ In (Media.id m) (map parse selected)).
Proof.
  intros Hauth (Hnd & _) selected Hsel Hparse found Hfetch.
  exists (entries_from (fetched lib) (List.length (trace w)) found).
  split; [|split; [|split]].
  - unfold serve, download_selected.
    rewrite login_required_begin by exact Hauth.
    fold selected.
    destruct (download_loop parse selected (begin w) []) as (objs & Hrun & _);
      auto.
    { intros o []. }
    destruct selected as [|x xs] eqn:Esel; [contradiction|].
    unfold bind.
    change (for_fold (x :: xs) [] _ (begin w))
      with (for_fold (x :: xs) [] (download_body lib) (begin w)).
    rewrite Hrun. reflexivity.
  - apply entries_from_length.
  - intros k m Hk. destruct (Hfetch k m Hk) as (content & Hc).
    exists content. split; [exact Hc|].
    rewrite (entries_from_nth _ _ _ _ _ Hk). unfold fetched.
    now rewrite Hc.
  - intros Hids. split.
    + now apply NoDup_selected_rows.
    + intros m. now apply in_selected_rows.
Qed.

End DownloadFacts.

(** ** Deletions: the unit of work and the log *)

Lemma filter_filter {A} (p q : A -> bool) (l : list A) :
  filter p (filter q l) = filter (fun x => q x && p x) l.
Proof.
  induction l as [|a l IH]; simpl; [reflexivity|].
  destruct (q a); simpl; [|exact IH].
  destruct (p a); [now rewrite IH | exact IH].
Qed.

Lemma marked_app (i : Z) (cs cs' : list Change) :
  marked i (cs ++ cs') = marked i cs || marked i cs'.
Proof. unfold marked. apply existsb_app. Qed.

Lemma fold_deletes (cs : list Change) (d : Database) :
  Forall is_delete cs ->
  fold_left apply_change cs d =
  with_medias d (filter (fun r => negb (marked (Media.id r) cs)) (medias d)).
Proof.
  intros Hcs. revert d. induction Hcs as [|c cs Hc Hcs IH]; intros d.
  - simpl. now rewrite filter_all, with_medias_same.
  - destruct c; try contradiction.
    cbn [fold_left apply_change]. rewrite IH.
    cbn [with_medias medias users user_seq media_seq].
    rewrite filter_filter. unfold with_medias. f_equal.
    apply filter_ext. intros r. unfold marked; simpl. now rewrite negb_orb.
Qed.

Lemma flushed_deleting (s : State) :
  Forall is_delete (pending s) ->
  (forall o, In o (identity_map s) ->
             marked (Media.id o) (pending s) = true) ->
  flushed s =
    mkState (world s) (with_medias (txn s) (remaining s)) [] [].
Proof.
  intros HP HJ. unfold flushed, remaining. f_equal.
  - rewrite (fold_deletes _ _ HP).
    cbn [with_medias medias users user_seq media_seq].
    rewrite (filter_write_back (fun j => negb (marked j (pending s)))).
    + reflexivity.
    + intros o Ho. now rewrite (HJ o Ho).
  - induction (identity_map s) as [|o objs IH]; [reflexivity|].
    cbn [filter]. rewrite (HJ o (or_introl eq_refl)). cbn [negb].
    apply IH. intros o' Ho'. apply HJ. now right.
Qed.

Lemma delete_row_absent (i : Z) (rows : list Media.t) :
  find_media i rows = None -> delete_row i rows = rows.
Proof.
  intros Hnone. unfold delete_row.
  rewrite <- (filter_all rows) at 2. apply filter_ext_in. intros r Hr.
  pose proof (find_media_none i rows r Hnone Hr) as Hne.
  apply Z.eqb_neq in Hne. now rewrite Hne.
Qed.

Lemma delete_rows_snoc (ids : list Z) (i : Z) (rows : list Media.t) :
  delete_rows (ids ++ [i]) rows = delete_row i (delete_rows ids rows).
Proof.
  unfold delete_rows, delete_row. rewrite filter_filter.
  apply filter_ext. intros r. rewrite existsb_app; simpl.
  now rewrite orb_false_r, negb_orb.
Qed.

Lemma in_delete_row (i : Z) (rows : list Media.t) (r : Media.t) :
  In r rows -> ~ In r (delete_row i rows) -> Media.id r = i.
Proof.
  intros Hin Hout. destruct (Z.eqb_spec (Media.id r) i) as [E|E]; [exact E|].
  exfalso. apply Hout. unfold delete_row. apply filter_In. split; [exact Hin|].
  apply Z.eqb_neq in E. now rewrite E.
Qed.

Lemma destroyed_before_deleted_nil : destroyed_before_deleted [].
Proof. intros [|? ?] m post H; discriminate. Qed.

Lemma destroyed_before_deleted_snoc (T : list Event) (e : Event) :
  destroyed_before_deleted T ->
  (forall m, e = EvDelete m ->
             exists pre', T = pre' ++ [EvDestroy (Media.public_id m)]) ->
  destroyed_before_deleted (T ++ [e]).
Proof.
  intros HT He pre m post Heq.
  destruct post as [|p post].
  - apply app_inj_tail in Heq as [-> ->]. now apply He.
  - assert (Hne : p :: post <> []) by discriminate.
    destruct (exists_last Hne) as (post' & a & Hpost). rewrite Hpost in Heq.
    change (pre ++ EvDelete m :: post' ++ [a])
      with (pre ++ (EvDelete m :: post') ++ [a]) in Heq.
    rewrite app_assoc in Heq. apply app_inj_tail in Heq as [-> _].
    now apply (HT pre m post').
Qed.

Lemma destroyed_before_deleted_pair (T : list Event) (m : Media.t) :
  destroyed_before_deleted T ->
  destroyed_before_deleted
    ((T ++ [EvDestroy (Media.public_id m)]) ++ [EvDelete m]).
Proof.
  intros HT. apply destroyed_before_deleted_snoc.
  - apply destroyed_before_deleted_snoc; [exact HT | discriminate].
  - intros m' [= <-]. now exists T.
Qed.


(** ** delete and bulk_delete *)

(** [Media.query.get] in a session whose loaded objects are all marked for
    deletion: an object of the identity map is returned as it is, marked;
    otherwise the deletions are flushed and the row is read. *)
Lemma Media_query_get_deleting (i : Z) (s : State) :
  Forall is_delete (pending s) ->
  (forall o, In o (identity_map s) ->
             marked (Media.id o) (pending s) = true) ->
  exists o s1,
    Media_query_get i s = (Return o, s1) /\
    world s1 = world s /\
    (forall rows, with_medias (txn s1) rows = with_medias (txn s) rows) /\
    Forall is_delete (pending s1) /\
    (forall o', In o' (identity_map s1) ->
                marked (Media.id o') (pending s1) = true \/ Media.id o' = i) /\
    remaining s1 = remaining s /\
    match o with
    | None => find_media i (remaining s) = None /\ identity_map s1 = []
    | Some m =>
        Media.id m = i /\
        (forall r, NoDup (map Media.id (remaining s)) ->
                   In r (remaining s) -> Media.id r = i -> r = m)
    end.
Proof.
  intros HP HJ. rewrite Media_query_get_deletes by exact HP. cbv zeta.
  destruct (find_media i (identity_map s)) as [m|] eqn:Hhit.
  - exists (Some m), s.
    apply find_media_spec in Hhit as [Hin Hid].
    repeat split; auto.
    intros r _ Hr Hr_id. exfalso.
    unfold remaining in Hr. apply filter_In in Hr as [_ Hr].
    rewrite Hr_id, <- Hid, (HJ m Hin) in Hr. discriminate.
  - rewrite (flushed_deleting s HP HJ).
    cbn [txn medias with_medias world identity_map pending app].
    assert (Hrem : forall objs,
               remaining (mkState (world s)
                            (with_medias (txn s) (remaining s)) objs []) =
               remaining s).
    { intros objs. unfold remaining at 1; simpl. apply filter_all. }
    destruct (find_media i (remaining s)) as [m|] eqn:Hrow.
    + exists (Some m). eexists. split; [reflexivity|].
      destruct (find_media_spec _ _ _ Hrow) as [Hin Hid].
      cbn [world txn pending identity_map].
      repeat split; auto.
      * intros o' [<- | []]. now right.
      * intros r Hnd Hr Hr_id. rewrite <- Hr_id in Hrow.
        now apply (find_media_unique (remaining s)).
    + exists None. eexists. split; [reflexivity|].
      cbn [world txn pending identity_map].
      repeat split; auto; intros o' [].
Qed.

Section DeleteFacts.

Variable lib : Services.

Lemma bulk_delete_loop (w : World) (ids : list Z) :
  NoDup (map Media.id (medias (db w))) ->
  exists T,
    destroyed_before_deleted T /\
    ~ In EvCommit T /\
    match for_each ids (delete_body lib) (begin w) with
    | (Return _, s) =>
        world s = mkWorld (db w) (user_id w) (flashes w) (trace w ++ T) /\
        (forall rows, with_medias (txn s) rows = with_medias (db w) rows) /\
        Forall is_delete (pending s) /\
        (forall o, In o (identity_map s) ->
                   marked (Media.id o) (pending s) = true) /\
        remaining s = delete_rows ids (medias (db w)) /\
        (forall r, In r (medias (db w)) -> ~ In r (remaining s) ->
                   In (EvDelete r) T)
    | (Raise _, s) =>
        world s = mkWorld (db w) (user_id w) (flashes w) (trace w ++ T)
    end.
Proof.
  intros Hnd.
  set (logged := fun (s : State) (T : list Event) =>
                   world s = mkWorld (db w) (user_id w) (flashes w)
                                     (trace w ++ T) /\
                   destroyed_before_deleted T /\ ~ In EvCommit T).
  set (I := fun (pre : list Z) (_ : unit) (s : State) =>
              (forall rows,
                 with_medias (txn s) rows = with_medias (db w) rows) /\
              Forall is_delete (pending s) /\
              (forall o, In o (identity_map s) ->
                         marked (Media.id o) (pending s) = true) /\
              remaining s = delete_rows pre (medias (db w)) /\
              exists T,
                logged s T /\
                forall r, In r (medias (db w)) -> ~ In r (remaining s) ->
                          In (EvDelete r) T).
  set (E := fun (_ : Exception) (s : State) => exists T, logged s T).
  assert (Hstep : forall pre x acc s,
             In x ids ->
             I pre acc s ->
             match delete_body lib x s with
             | (Return acc', s') => I (pre ++ [x]) acc' s'
             | (Raise e, s') => E e s'
             end).
  { intros pre i acc s _ (Htx & HP & HJ & Hrem & T & (Hw & HT & HnoC) & Hgone).
    destruct (Media_query_get_deleting i s HP HJ)
      as (o & s1 & Hget & Hw1 & Htx1 & HP1 & HJ1 & Hrem1 & Ho).
    unfold delete_body, bind. rewrite Hget.
    destruct o as [m|].
    - destruct Ho as [Hid Huniq].
      unfold cloudinary_uploader_destroy, tick.
      destruct (uploader_destroy lib _ _) as [res|e].
      + cbn [db_session_delete emit add_pending modify bind on_world
             world txn identity_map pending].
        unfold bind, emit, add_pending, modify.
        cbn [on_world world txn identity_map pending].
        assert (Hmark :
                  remaining
                    (mkState
                       (log (EvDelete m)
                            (log (EvDestroy (Media.public_id m)) (world s1)))
                       (txn s1) (identity_map s1)
                       (pending s1 ++ [DeleteMedia (Media.id m)])) =
                  delete_rows (pre ++ [i]) (medias (db w))).
        { rewrite delete_rows_snoc, <- Hrem, <- Hrem1, <- Hid.
          unfold remaining, delete_row; cbn [pending txn].
          rewrite filter_filter. apply filter_ext. intros r.
          rewrite marked_app. unfold marked at 2; simpl.
          now rewrite orb_false_r, negb_orb. }
        split; [|split; [|split; [|split]]].
        * intros rows. cbn [txn]. now rewrite Htx1, Htx.
        * cbn [pending]. apply Forall_app. split; [exact HP1|].
          now repeat constructor.
        * cbn [identity_map pending]. intros o Ho.
          rewrite marked_app.
          destruct (HJ1 o Ho) as [-> | Hoi]; [reflexivity|].
          unfold marked at 2; simpl.
          rewrite Hoi, <- Hid, Z.eqb_refl. apply orb_true_r.
        * exact Hmark.
        * exists ((T ++ [EvDestroy (Media.public_id m)]) ++ [EvDelete m]).
          split; [split; [|split]|].
          -- cbn [world]. rewrite Hw1, Hw. unfold log; simpl.
             now rewrite <- !app_assoc.
          -- now apply destroyed_before_deleted_pair.
          -- rewrite !in_app_iff. intros [[H | [H | []]] | [H | []]];
               try discriminate. contradiction.
          -- intros r Hr Hout. rewrite Hmark, delete_rows_snoc in Hout.
             rewrite in_app_iff.
             destruct (existsb (Z.eqb (Media.id r)) pre) eqn:Q.
             ++ left. rewrite in_app_iff. left. apply Hgone; [exact Hr|].
                rewrite Hrem. unfold delete_rows. rewrite filter_In, Q.
                intros [_ H]; discriminate.
             ++ assert (HrR : In r (delete_rows pre (medias (db w)))).
                { unfold delete_rows. rewrite filter_In, Q. now split. }
                pose proof (in_delete_row i _ r HrR Hout) as Hri.
                right. left. f_equal. symmetry.
                apply Huniq; [| now rewrite Hrem | exact Hri].
                rewrite Hrem. unfold delete_rows.
                now apply NoDup_map_filter.
      + exists (T ++ [EvDestroy (Media.public_id m)]).
        split; [|split].
        * cbn [on_world world]. rewrite Hw1, Hw. unfold log; simpl.
          now rewrite <- app_assoc.
        * apply destroyed_before_deleted_snoc; [exact HT | discriminate].
        * rewrite in_app_iff. intros [H | [H | []]];
            [contradiction | discriminate].
    - destruct Ho as [Hnone Hobjs]. unfold ret.
      assert (Hrem' : remaining s1 = delete_rows (pre ++ [i]) (medias (db w))).
      { rewrite delete_rows_snoc, <- Hrem, Hrem1.
        symmetry. now apply delete_row_absent. }
      split; [|split; [|split; [|split]]].
      + intros rows. now rewrite Htx1, Htx.
      + exact HP1.
      + rewrite Hobjs. intros o [].
      + exact Hrem'.
      + exists T. split; [split; [|split]|]; auto.
        * now rewrite Hw1.
        * intros r Hr Hout. apply Hgone; [exact Hr|]. now rewrite <- Hrem1. }
  assert (Hinit : I [] tt (begin w)).
  { unfold I. split; [|split; [|split; [|split]]].
    - reflexivity.
    - constructor.
    - intros o [].
    - unfold remaining, delete_rows; simpl. reflexivity.
    - exists []. split; [split; [|split]|].
      + simpl. rewrite app_nil_r. now destruct w.
      + apply destroyed_before_deleted_nil.
      + intros [].
      + intros r Hr Hout. exfalso. apply Hout.
        unfold remaining; simpl. now rewrite filter_all. }
  pose proof (for_fold_rule (fun _ x => delete_body lib x) I E
                ids Hstep [] tt (begin w) Hinit) as H.
  unfold for_each.
  destruct (for_fold ids tt (fun _ x => delete_body lib x) (begin w))
    as [[[]|e] s'].
  - destruct H as (Htx & HP & HJ & Hrem & T & (Hw & HT & HnoC) & Hgone).
    exists T. now repeat split.
  - destruct H as (T & Hw & HT & HnoC). exists T. now repeat split.
Qed.

(** What /bulk_delete does: it either commits the deletion of the rows
    of the listed ids, or raises in a destroy call and commits nothing. *)
Lemma bulk_delete_run (w : World) (request : Request)
    (data : list (string * list Z)) :
  is_authenticated w = true ->
  NoDup (map Media.id (medias (db w))) ->
  json request = Some data ->
  let media_ids := multi_get_default "media_ids" [] data in
  exists T,
    destroyed_before_deleted T /\
    ~ In EvCommit T /\
    ((serve (bulk_delete lib request) w =
        (success,
         mkWorld (with_medias (db w) (delete_rows media_ids (medias (db w))))
                 (user_id w) (flashes w) (trace w ++ T ++ [EvCommit])) /\
      forall r, In r (medias (db w)) ->
                ~ In r (delete_rows media_ids (medias (db w))) ->
                In (EvDelete r) T) \/
     exists e,
       serve (bulk_delete lib request) w =
         (error_page e,
          mkWorld (db w) (user_id w) (flashes w) (trace w ++ T))).
Proof.
  intros Hauth Hnd Hjson media_ids.
  assert (Hserve :
            serve (bulk_delete lib request) w =
            match for_each media_ids (delete_body lib) (begin w) with
            | (Return _, s) =>
                match db_session_commit s with
                | (Return _, s') => (success, world s')
                | (Raise e, s') => (error_page e, world s')
                end
            | (Raise e, s) => (error_page e, world s)
            end).
  { unfold serve, bulk_delete.
    rewrite login_required_begin by exact Hauth.
    unfold bind at 1. rewrite (get_json_some _ _ Hjson). unfold ret at 1.
    fold media_ids. unfold bind at 1.
    change (for_each media_ids _ (begin w))
      with (for_each media_ids (delete_body lib) (begin w)).
    destruct (for_each media_ids (delete_body lib) (begin w))
      as [[[]|e] s]; [|reflexivity].
    unfold bind, ret. now destruct (db_session_commit s) as [[[]|e] s']. }
  rewrite Hserve.
  destruct (bulk_delete_loop w media_ids Hnd) as (T & HT & HnoC & Hrun).
  exists T. split; [exact HT|]. split; [exact HnoC|].
  destruct (for_each media_ids (delete_body lib) (begin w))
    as [[[]|e] s].
  - destruct Hrun as (Hw & Htx & HP & HJ & Hrem & Hgone).
    left. rewrite db_session_commit_deletes by exact HP. unfold commit.
    rewrite (flushed_deleting s HP HJ).
    cbn [world txn identity_map pending].
    rewrite Hw, Htx, Hrem.
    unfold log. cbn [db user_id flashes trace].
    rewrite <- app_assoc. split; [reflexivity|].
    intros r Hr Hout. apply Hgone; [exact Hr | now rewrite Hrem].
  - right. exists e. now rewrite Hrun.
Qed.


End DeleteFacts.

(** ** The schema constraints are kept by every route *)

Lemma db_ok_empty : db_ok empty_db.
Proof.
  unfold db_ok, empty_db; simpl.
  repeat split; try constructor; intros ? [].
Qed.

Lemma db_ok_with_medias (d : Database) (rows : list Media.t) :
  db_ok d ->
  NoDup (map Media.id rows) ->
  (forall m, In m rows -> exists m', In m' (medias d) /\ Media.id m' = Media.id m) ->
  db_ok (with_medias d rows).
Proof.
  intros (_ & Hid & Hname & Hmseq & Huseq) Hnd Hsub.
  unfold db_ok; simpl. repeat split; auto.
  intros m Hm. destruct (Hsub m Hm) as (m' & Hm' & <-). now apply Hmseq.
Qed.

Lemma db_ok_toggle_rows (d : Database) (ids : list Z) :
  db_ok d -> db_ok (with_medias d (toggle_rows ids (medias d))).
Proof.
  intros Hok. pose proof Hok as (Hnd & _).
  assert (Hid : forall r,
             Media.id (if Nat.odd (count_occ Z.eq_dec ids (Media.id r))
                       then toggled r else r) = Media.id r)
    by (intros r; now destruct (Nat.odd _)).
  apply db_ok_with_medias; [exact Hok | |].
  - unfold toggle_rows. rewrite map_map.
    now rewrite (map_ext _ Media.id Hid).
  - intros m Hm. unfold toggle_rows in Hm.
    apply in_map_iff in Hm as (r & <- & Hr). exists r. now rewrite Hid.
Qed.

Lemma db_ok_toggle_row (d : Database) (i : Z) :
  db_ok d -> db_ok (with_medias d (toggle_row i (medias d))).
Proof.
  intros Hok. pose proof Hok as (Hnd & _).
  assert (Hid : forall r,
             Media.id (if Media.id r =? i then toggled r else r) = Media.id r)
    by (intros r; now destruct (Media.id r =? i)).
  apply db_ok_with_medias; [exact Hok | |].
  - unfold toggle_row. rewrite map_map.
    now rewrite (map_ext _ Media.id Hid).
  - intros m Hm. unfold toggle_row in Hm.
    apply in_map_iff in Hm as (r & <- & Hr). exists r. now rewrite Hid.
Qed.

Lemma db_ok_filter_medias (d : Database) (keep : Media.t -> bool) :
  db_ok d -> db_ok (with_medias d (filter keep (medias d))).
Proof.
  intros Hok. pose proof Hok as (Hnd & _).
  apply db_ok_with_medias; [exact Hok | now apply NoDup_map_filter |].
  intros m Hm. apply filter_In in Hm as [Hm _]. now exists m.
Qed.

Lemma db_ok_insert_media (d : Database) (m : Media.t) :
  db_ok d ->
  Media.id m = media_seq d ->
  db_ok (mkDatabase (users d) (medias d ++ [m]) (user_seq d) (media_seq d + 1)).
Proof.
  intros (Hnd & Hid & Hname & Hmseq & Huseq) Hm.
  unfold db_ok; simpl. repeat split; auto.
  - rewrite map_app; simpl. apply NoDup_app; repeat split; auto.
    + repeat constructor; auto.
    + intros a Ha [<- | []].
      apply in_map_iff in Ha as (x & Hx & Hin). apply Hmseq in Hin. lia.
  - intros x Hx. apply in_app_iff in Hx as [Hx | [<- | []]]; [|lia].
    apply Hmseq in Hx. lia.
Qed.

Lemma db_ok_insert_user (d : Database) (name pw : string) :
  db_ok d ->
  find_username name (users d) = None ->
  db_ok (mkDatabase (users d ++ [User.mk (user_seq d) name pw]) (medias d)
                    (user_seq d + 1) (media_seq d)).
Proof.
  intros (Hnd & Hid & Hname & Hmseq & Huseq) Hfresh.
  unfold db_ok; simpl. repeat split; auto.
  - rewrite map_app; simpl. apply NoDup_app; repeat split; auto.
    + repeat constructor; auto.
    + intros a Ha [<- | []].
      apply in_map_iff in Ha as (x & Hx & Hin). apply Huseq in Hin. lia.
  - rewrite map_app; simpl. apply NoDup_app; repeat split; auto.
    + repeat constructor; auto.
    + intros a Ha [<- | []].
      apply in_map_iff in Ha as (x & Hx & Hin).
      pose proof (find_none _ _ Hfresh x Hin) as H. simpl in H.
      apply String.eqb_neq in H. contradiction.
  - intros x Hx. apply in_app_iff in Hx as [Hx | [<- | []]]; simpl; [|lia].
    apply Huseq in Hx. lia.
Qed.

(** *** Computations that do not commit *)

Lemma keeps_ret {A} (a : A) : keeps_db (ret a).
Proof. intros s; reflexivity. Qed.

Lemma keeps_raise {A} (e : Exception) : keeps_db (@raise A e).
Proof. intros s; reflexivity. Qed.

Lemma keeps_bind {A B} (c : M A) (k : A -> M B) :
  keeps_db c -> (forall a, keeps_db (k a)) -> keeps_db (bind c k).
Proof.
  intros Hc Hk s. unfold bind. specialize (Hc s).
  destruct (c s) as [[a|e] s']; simpl in *; [|exact Hc].
  now rewrite (Hk a s').
Qed.

Lemma keeps_try_except {A} (c : M A) (h : Exception -> M A) :
  keeps_db c -> (forall e, keeps_db (h e)) -> keeps_db (try_except c h).
Proof.
  intros Hc Hh s. unfold try_except. specialize (Hc s).
  destruct (c s) as [[a|e] s']; simpl in *; [exact Hc|].
  now rewrite (Hh e s').
Qed.

Lemma keeps_for_fold {A B} (l : list A) (body : B -> A -> M B) :
  (forall acc x, keeps_db (body acc x)) ->
  forall acc, keeps_db (for_fold l acc body).
Proof.
  intros Hbody. induction l as [|x l IH]; intros acc; simpl.
  - apply keeps_ret.
  - apply keeps_bind; [apply Hbody | exact IH].
Qed.

Lemma keeps_modify (f : State -> State) :
  (forall s, db (world (f s)) = db (world s)) -> keeps_db (modify f).
Proof. intros Hf s. apply Hf. Qed.

Lemma keeps_flush : keeps_db flush.
Proof. intros s. now rewrite flush_world. Qed.

Lemma keeps_autoflush : keeps_db autoflush.
Proof. exact keeps_flush. Qed.

Lemma keeps_Media_query_get (i : Z) : keeps_db (Media_query_get i).
Proof. intros s. now rewrite Media_query_get_world. Qed.

Lemma keeps_current_user : keeps_db current_user.
Proof.
  intros s. unfold current_user.
  destruct (user_id (world s)); [|reflexivity].
  unfold User_query_get, autoflush, bind.
  pose proof (flush_world s) as Hw.
  now destruct (flush s) as [[[]|e] s1]; cbn [snd] in *; rewrite Hw.
Qed.

Lemma keeps_db_session_add (obj : Instance) : keeps_db (db_session_add obj).
Proof. intros s. now destruct obj. Qed.

Lemma keeps_db_session_delete (obj : Instance) :
  keeps_db (db_session_delete obj).
Proof. intros s. now destruct obj. Qed.

Lemma keeps_login_required (view : M Response) :
  keeps_db view -> keeps_db (login_required view).
Proof.
  intros Hview. unfold login_required.
  apply keeps_bind; [apply keeps_current_user|].
  intros [u|]; [exact Hview|].
  apply keeps_bind; [now apply keeps_modify | intros; apply keeps_ret].
Qed.

Create HintDb keeps.

#[local] Hint Resolve keeps_ret keeps_raise keeps_flush keeps_autoflush
  keeps_Media_query_get keeps_current_user keeps_db_session_add
  keeps_db_session_delete : keeps.

Ltac keeps_step :=
  first
    [ progress intros
    | apply keeps_bind
    | apply keeps_try_except
    | apply keeps_for_fold
    | apply keeps_login_required
    | solve [auto with keeps]
    | solve [intros ?; reflexivity]
    | match goal with
      | |- keeps_db (match ?x with _ => _ end) => destruct x
      end ].

Ltac keeps := repeat keeps_step.

Lemma serve_keeps_db (view : M Response) (w : World) :
  keeps_db view -> db (snd (serve view w)) = db w.
Proof.
  intros Hview. unfold serve. specialize (Hview (begin w)).
  now destruct (view (begin w)) as [[r|e] s].
Qed.

Lemma login_required_denied (view : M Response) (w : World) :
  is_authenticated w = false ->
  db (snd (serve (login_required view) w)) = db w.
Proof.
  unfold is_authenticated, serve, login_required, bind; intros H.
  rewrite current_user_begin. now destruct (logged_in w).
Qed.

Section RouteFacts.

Variable lib : Services.

Lemma login_keeps_db (request : Request) : keeps_db (login lib request).
Proof.
  unfold login, User_query_first, User_query_filter_by_username_first,
    werkzeug_check_password_hash, flash, login_user.
  keeps.
Qed.

Lemma download_selected_keeps_db (request : Request) :
  keeps_db (download_selected lib request).
Proof.
  unfold download_selected, py_int, requests_get_content, flash.
  keeps.
Qed.

Lemma setup_keeps_db_ok (request : Request) (w : World) :
  db_ok (db w) -> db_ok (db (snd (serve (setup lib request) w))).
Proof.
  intros Hok.
  destruct (method request) eqn:Hm;
    [unfold serve, setup; now rewrite Hm|].
  destruct (nonempty (multi_get "username" (form request)))
    as [name|] eqn:Hu;
    [|unfold serve, setup; now rewrite Hm, Hu].
  destruct (nonempty (multi_get "password" (form request)))
    as [pw|] eqn:Hp;
    [|unfold serve, setup; now rewrite Hm, Hu, Hp].
  destruct (setup_run lib w request name pw Hok Hm Hu Hp) as (n & evs & ->).
  cbv zeta. destruct (refused (db w) _).
  - now apply db_ok_filter_users.
  - now apply setup_db_ok.
Qed.

Lemma register_keeps_db_ok (request : Request) (w : World) :
  db_ok (db w) -> db_ok (db (snd (serve (register lib request) w))).
Proof.
  intros Hok.
  destruct (method request) eqn:Hm;
    [unfold serve, register; now rewrite Hm|].
  destruct (nonempty (multi_get "username" (form request)))
    as [name|] eqn:Hu;
    [|unfold serve, register; now rewrite Hm, Hu].
  destruct (nonempty (multi_get "password" (form request)))
    as [pw|] eqn:Hp;
    [|unfold serve, register; now rewrite Hm, Hu, Hp].
  destruct (find_username name (users (db w))) as [u|] eqn:Hfind.
  - unfold serve, register. rewrite Hm, Hu, Hp.
    unfold bind at 1. now rewrite filter_by_username_begin, Hfind.
  - rewrite (register_run lib w request name pw Hm Hu Hp Hfind).
    destruct (refused (db w) _); [exact Hok|].
    now apply db_ok_insert_user.
Qed.

Lemma upload_keeps_db_ok (request : Request) (w : World) :
  db_ok (db w) -> db_ok (db (snd (serve (upload lib request) w))).
Proof.
  intros Hok.
  destruct (method request) eqn:Hm;
    [unfold serve, upload; now rewrite Hm|].
  destruct (multi_get "file" (files request)) as [file|] eqn:Hfile;
    [|unfold serve, upload; now rewrite Hm, Hfile].
  destruct (String.eqb_spec (file_filename file) "") as [Hname|Hname];
    [unfold serve, upload; rewrite Hm, Hfile, Hname; exact Hok|].
  destruct (uploader_upload lib (List.length (trace w)) file)
    as [result|e] eqn:Hup.
  - rewrite (upload_run lib w request file result Hm Hfile Hname Hup).
    destruct (refused (db w) _); [exact Hok|].
    now apply db_ok_insert_media.
  - now rewrite (upload_remote_failure_run lib w request file e Hm Hfile Hname Hup).
Qed.

Lemma delete_keeps_db_ok (i : Z) (w : World) :
  db_ok (db w) -> db_ok (db (snd (serve (delete lib i) w))).
Proof.
  intros Hok.
  destruct (is_authenticated w) eqn:Hauth;
    [|unfold delete; now rewrite login_required_denied].
  destruct (find_media i (medias (db w))) as [m|] eqn:Hfind;
    [|now rewrite delete_missing].
  rewrite (delete_run lib w i m Hauth Hfind).
  destruct (uploader_destroy lib _ _); [|exact Hok].
  now apply db_ok_filter_medias.
Qed.

Lemma toggle_visibility_keeps_db_ok (i : Z) (w : World) :
  db_ok (db w) -> db_ok (db (snd (serve (toggle_visibility i) w))).
Proof.
  intros Hok.
  destruct (is_authenticated w) eqn:Hauth;
    [|unfold toggle_visibility; now rewrite login_required_denied].
  destruct (find_media i (medias (db w))) as [m|] eqn:Hfind;
    [|now rewrite toggle_visibility_missing].
  rewrite (toggle_visibility_found w i m Hauth Hok Hfind).
  now apply db_ok_toggle_row.
Qed.

Lemma bulk_without_json (w : World) (request : Request)
    (k : list (string * list Z) -> M Response) :
  json request = None ->
  db (snd (serve (login_required (data <- get_json request ;; k data)) w)) =
  db w.
Proof.
  intros Hjson.
  destruct (is_authenticated w) eqn:Hauth;
    [|now rewrite login_required_denied].
  unfold serve. rewrite login_required_begin by exact Hauth.
  destruct (get_json_none _ Hjson) as (e & He).
  unfold bind. now rewrite He.
Qed.

Lemma bulk_toggle_visibility_keeps_db_ok (request : Request) (w : World) :
  db_ok (db w) ->
  db_ok (db (snd (serve (bulk_toggle_visibility request) w))).
Proof.
  intros Hok.
  destruct (json request) as [data|] eqn:Hjson;
    [|unfold bulk_toggle_visibility; now rewrite bulk_without_json].
  destruct (is_authenticated w) eqn:Hauth;
    [|unfold bulk_toggle_visibility; now rewrite login_required_denied].
  pose proof Hok as (Hnd & _).
  rewrite (bulk_toggle_visibility_run w request data Hauth Hnd Hjson).
  now apply db_ok_toggle_rows.
Qed.

Lemma bulk_delete_keeps_db_ok (request : Request) (w : World) :
  db_ok (db w) -> db_ok (db (snd (serve (bulk_delete lib request) w))).
Proof.
  intros Hok. pose proof Hok as (Hnd & _).
  destruct (json request) as [data|] eqn:Hjson;
    [|unfold bulk_delete; now rewrite bulk_without_json].
  destruct (is_authenticated w) eqn:Hauth;
    [|unfold bulk_delete; now rewrite login_required_denied].
  destruct (bulk_delete_run lib w request data Hauth Hnd Hjson)
    as (T & _ & _ & [[-> _] | (e & ->)]); [|exact Hok].
  now apply db_ok_filter_medias.
Qed.

(** Whatever is requested, the tables satisfy the schema constraints
    after the request if they did before. *)
Theorem dispatch_keeps_db_ok (r : Route) (request : Request) (w : World) :
  db_ok (db w) ->
  db_ok (db (snd (serve (dispatch lib r request) w))).
Proof.
  intros Hok. unfold dispatch.
  destruct (matched r); [|exact Hok].
  destruct (allows (methods r) (method request)); [|exact Hok].
  destruct r; cbn [view_function].
  - now apply setup_keeps_db_ok.
  - now apply register_keeps_db_ok.
  - now rewrite serve_keeps_db by apply login_keeps_db.
  - rewrite serve_keeps_db; [exact Hok|].
    unfold logout, logout_user. keeps.
  - exact Hok.
  - now apply upload_keeps_db_ok.
  - now rewrite gallery_run.
  - rewrite serve_keeps_db; [exact Hok|].
    unfold manage, Media_query_all. keeps.
  - now apply delete_keeps_db_ok.
  - now apply toggle_visibility_keeps_db_ok.
  - now rewrite serve_keeps_db by apply download_selected_keeps_db.
  - now apply bulk_toggle_visibility_keeps_db_ok.
  - now apply bulk_delete_keeps_db_ok.
Qed.

(** X17: every world the application can reach from the empty database
    by serving requests, whatever they are and whatever the external
    services answer, satisfies the schema constraints: primary keys and
    usernames are unique and the sequences are ahead of the keys. *)
Corollary reachable_db_ok (w : World) : reachable lib w -> db_ok (db w).
Proof.
  induction 1 as [|w r request Hw IH].
  - apply db_ok_empty.
  - now apply dispatch_keeps_db_ok.
Qed.

End RouteFacts.

(** * Further properties of the routes *)

(** ** Who may do what *)

Lemma login_required_denied_run (view : M Response) (w : World) :
  is_authenticated w = false ->
  serve (login_required view) w = (redirect "login", denied w).
Proof.
  unfold is_authenticated, serve, login_required, bind; intros H.
  rewrite current_user_begin. now destruct (logged_in w).
Qed.

Lemma find_user_in (us : list User.t) (u : User.t) :
  In u us -> exists u', find_user (User.id u) us = Some u'.
Proof.
  intros Hin. destruct (find_user (User.id u) us) as [u'|] eqn:F; [eauto|].
  pose proof (find_none _ _ F u Hin) as H. simpl in H.
  now rewrite Z.eqb_refl in H.
Qed.

(** The first match of a search survives a selection that keeps it. *)
Lemma find_filter_keep {A} (q keep : A -> bool) (l : list A) (x : A) :
  find q l = Some x -> keep x = true -> find q (filter keep l) = Some x.
Proof.
  induction l as [|a l IH]; simpl; [discriminate|].
  destruct (q a) eqn:Q.
  - intros [= ->] Hk. rewrite Hk; simpl. now rewrite Q.
  - intros Hf Hk. destruct (keep a); simpl; [rewrite Q|]; auto.
Qed.

Lemma find_filter_none {A} (q keep : A -> bool) (l : list A) :
  (forall x, In x l -> q x = true -> keep x = false) ->
  find q (filter keep l) = None.
Proof.
  induction l as [|a l IH]; simpl; [reflexivity|]. intros H.
  destruct (keep a) eqn:K; simpl.
  - destruct (q a) eqn:Q.
    + rewrite (H a (or_introl eq_refl) Q) in K. discriminate.
    + apply IH. intros x Hx. apply H. now right.
  - apply IH. intros x Hx. apply H. now right.
Qed.

Section AccessFacts.

Variable lib : Services.

(** X1: a request that is not authenticated never reaches the body of a
    route under [@login_required]: the answer is the redirect to the
    login page, nothing is committed, no call goes out, and the session
    is as before but for the flashed notice. *)
Theorem protected_routes_require_login (r : Route) (request : Request)
    (w : World) :
  protected r = true ->
  is_authenticated w = false ->
  serve (view_function lib r request) w = (redirect "login", denied w).
Proof.
  intros Hr Hauth.
  destruct r; try discriminate Hr; cbn [view_function];
    now apply login_required_denied_run.
Qed.

(** X2: a POST to /login with the name of a registered user and a
    password the stored hash accepts answers with the redirect to
    /manage and makes that user the logged-in one, without touching
    tables, flashes or log; the session then passes [@login_required],
    and /manage lists every media row, each once, in the order the
    database returns them. *)
Theorem login_success (w : World) (request : Request) (name pw : string)
    (u : User.t) :
  method request = POST ->
  multi_get "username" (form request) = Some name ->
  multi_get "password" (form request) = Some pw ->
  find_username name (users (db w)) = Some u ->
  check_password_hash lib (User.password u) pw = true ->
  let w' := mkWorld (db w) (Some (User.id u)) (flashes w) (trace w) in
  serve (login lib request) w = (redirect "manage", w') /\
  is_authenticated w' = true /\
  exists listed,
    serve (manage lib) w' = (render_template "manage.html" listed, w') /\
    Permutation listed (medias (db w)).
Proof.
  intros Hm Hname Hpw Hfind Hcheck w'.
  assert (Hauth : is_authenticated w' = true).
  { unfold is_authenticated, logged_in, w'; cbn [user_id db].
    apply find_username_spec in Hfind as [Hin _].
    now destruct (find_user_in _ _ Hin) as (u' & ->). }
  split; [|split; [exact Hauth | exact (manage_lists_all lib w' Hauth)]].
  rewrite (login_run_found lib w request name u Hm Hname Hfind).
  now rewrite Hpw, Hcheck.
Qed.


(** X4: /logout of an authenticated session clears the login and
    redirects to the gallery, leaving tables, flashes and log alone;
    after it every route under [@login_required] answers with the
    redirect to the login page. *)
Theorem logout_ends_session (w : World) :
  is_authenticated w = true ->
  let w' := mkWorld (db w) None (flashes w) (trace w) in
  serve logout w = (redirect "gallery", w') /\
  is_authenticated w' = false /\
  forall r request,
    protected r = true ->
    serve (view_function lib r request) w' = (redirect "login", denied w').
Proof.
  intros Hauth w'. split; [|split].
  - unfold serve, logout. now rewrite login_required_begin by exact Hauth.
  - reflexivity.
  - intros r request Hr.
    destruct r; try discriminate Hr; cbn [view_function];
      now apply login_required_denied_run.
Qed.

(** X5: /setup gives the inserted row a new primary key, and the session
    holds the key of the row that was deleted: a /setup for the username
    of the logged-in user ends that user's session, a /setup for another
    username keeps it. *)
Theorem setup_invalidates_session (w : World) (request : Request)
    (name pw : string) (u : User.t) :
  db_ok (db w) ->
  logged_in w = Some u ->
  method request = POST ->
  nonempty (multi_get "username" (form request)) = Some name ->
  nonempty (multi_get "password" (form request)) = Some pw ->
  is_authenticated (snd (serve (setup lib request) w)) =
  negb (User.username u =? name)%string.
Proof.
  intros Hok Hlogged Hm Hu Hp.
  destruct (setup_run lib w request name pw Hok Hm Hu Hp) as (n & evs & ->).
  destruct Hok as (_ & Hid & _ & _ & Huseq).
  unfold is_authenticated, logged_in in *.
  destruct (user_id w) as [uid|] eqn:Huser; [|discriminate].
  pose proof (find_some _ _ Hlogged) as [Hin Huid]. simpl in Huid.
  apply Z.eqb_eq in Huid.
  assert (Hrest :
            find_user uid
              (filter (fun x => negb (User.username x =? name)%string)
                      (users (db w))) =
            if (User.username u =? name)%string then None else Some u).
  { unfold find_user in *.
    destruct (String.eqb_spec (User.username u) name) as [E|E].
    - apply find_filter_none. intros x Hx Hq. apply Z.eqb_eq in Hq.
      assert (x = u) by
        (apply (NoDup_map_eq User.id (users (db w))); auto; congruence).
      subst x. rewrite E, String.eqb_refl. reflexivity.
    - apply (find_filter_keep _ _ _ u Hlogged).
      apply String.eqb_neq in E. now rewrite E. }
  cbv zeta. destruct (refused (db w) _);
    cbn [snd user_id db users with_users].
  - rewrite Hrest. now destruct (User.username u =? name)%string.
  - unfold find_user in *. rewrite find_app, Hrest.
    destruct (User.username u =? name)%string; [|reflexivity].
    cbn [find User.id negb].
    pose proof (Huseq u Hin) as Hlt.
    destruct (Z.eqb_spec (user_seq (db w)) uid); [lia | reflexivity].
Qed.

(** X6: a POST to /setup without a username or without a password (field
    absent or empty) writes nothing: it flashes the complaint and
    renders the setup form again, where /register would redirect. *)
Theorem setup_rejects_empty (w : World) (request : Request) :
  method request = POST ->
  nonempty (multi_get "username" (form request)) = None \/
  nonempty (multi_get "password" (form request)) = None ->
  serve (setup lib request) w =
    (render_template "setup.html" [],
     mkWorld (db w) (user_id w)
             (flashes w ++ ["Username and password cannot be empty."%string])
             (trace w)).
Proof.
  intros Hm H. unfold serve, setup. rewrite Hm.
  destruct H as [-> | ->]; [reflexivity|].
  now destruct (nonempty (multi_get "username" (form request))).
Qed.

End AccessFacts.

(** ** Which route writes which table *)

Lemma same_users_refl (d : Database) : same_users d d.
Proof. now split. Qed.

Lemma same_medias_refl (d : Database) : same_medias d d.
Proof. now split. Qed.

Lemma same_users_with_medias (d : Database) (rows : list Media.t) :
  same_users d (with_medias d rows).
Proof. now split. Qed.

Lemma is_authenticated_same_users (w w' : World) :
  user_id w' = user_id w ->
  users (db w') = users (db w) ->
  is_authenticated w' = is_authenticated w.
Proof.
  intros Hid Hus. unfold is_authenticated, logged_in. now rewrite Hid, Hus.
Qed.

Lemma with_medias_twice (d : Database) (rows rows' : list Media.t) :
  with_medias (with_medias d rows) rows' = with_medias d rows'.
Proof. reflexivity. Qed.

Section FrameFacts.

Variable lib : Services.

Lemma setup_same_medias (request : Request) (w : World) :
  db_ok (db w) ->
  same_medias (db w) (db (snd (serve (setup lib request) w))).
Proof.
  intros Hok.
  destruct (method request) eqn:Hm;
    [unfold serve, setup; rewrite Hm; apply same_medias_refl|].
  destruct (nonempty (multi_get "username" (form request)))
    as [name|] eqn:Hu;
    [|unfold serve, setup; rewrite Hm, Hu; apply same_medias_refl].
  destruct (nonempty (multi_get "password" (form request)))
    as [pw|] eqn:Hp;
    [|unfold serve, setup; rewrite Hm, Hu, Hp; apply same_medias_refl].
  destruct (setup_run lib w request name pw Hok Hm Hu Hp) as (n & evs & ->).
  cbv zeta. now destruct (refused (db w) _).
Qed.

Lemma register_same_medias (request : Request) (w : World) :
  same_medias (db w) (db (snd (serve (register lib request) w))).
Proof.
  destruct (method request) eqn:Hm;
    [unfold serve, register; rewrite Hm; apply same_medias_refl|].
  destruct (nonempty (multi_get "username" (form request)))
    as [name|] eqn:Hu;
    [|unfold serve, register; rewrite Hm, Hu; apply same_medias_refl].
  destruct (nonempty (multi_get "password" (form request)))
    as [pw|] eqn:Hp;
    [|unfold serve, register; rewrite Hm, Hu, Hp; apply same_medias_refl].
  destruct (find_username name (users (db w))) as [u|] eqn:Hfind.
  - unfold serve, register. rewrite Hm, Hu, Hp.
    unfold bind at 1. rewrite filter_by_username_begin, Hfind.
    apply same_medias_refl.
  - rewrite (register_run lib w request name pw Hm Hu Hp Hfind).
    now destruct (refused (db w) _).
Qed.

Lemma upload_same_users (request : Request) (w : World) :
  same_users (db w) (db (snd (serve (upload lib request) w))).
Proof.
  destruct (method request) eqn:Hm;
    [unfold serve, upload; rewrite Hm; apply same_users_refl|].
  destruct (multi_get "file" (files request)) as [file|] eqn:Hfile;
    [|unfold serve, upload; rewrite Hm, Hfile; apply same_users_refl].
  destruct (String.eqb_spec (file_filename file) "") as [Hname|Hname];
    [unfold serve, upload; rewrite Hm, Hfile, Hname; apply same_users_refl|].
  destruct (uploader_upload lib (List.length (trace w)) file)
    as [result|e] eqn:Hup.
  - rewrite (upload_run lib w request file result Hm Hfile Hname Hup).
    now destruct (refused (db w) _).
  - rewrite (upload_remote_failure_run lib w request file e Hm Hfile Hname Hup).
    apply same_users_refl.
Qed.

Lemma delete_same_users (i : Z) (w : World) :
  same_users (db w) (db (snd (serve (delete lib i) w))).
Proof.
  destruct (is_authenticated w) eqn:Hauth;
    [|unfold delete; rewrite login_required_denied_run by exact Hauth;
      apply same_users_refl].
  destruct (find_media i (medias (db w))) as [m|] eqn:Hfind;
    [|rewrite delete_missing by assumption; apply same_users_refl].
  rewrite (delete_run lib w i m Hauth Hfind).
  destruct (uploader_destroy lib _ _);
    [apply same_users_with_medias | apply same_users_refl].
Qed.

Lemma toggle_visibility_same_users (i : Z) (w : World) :
  db_ok (db w) ->
  same_users (db w) (db (snd (serve (toggle_visibility i) w))).
Proof.
  intros Hok.
  destruct (is_authenticated w) eqn:Hauth;
    [|unfold toggle_visibility;
      rewrite login_required_denied_run by exact Hauth;
      apply same_users_refl].
  destruct (find_media i (medias (db w))) as [m|] eqn:Hfind;
    [|rewrite toggle_visibility_missing by assumption;
      apply same_users_refl].
  rewrite (toggle_visibility_found w i m Hauth Hok Hfind).
  apply same_users_with_medias.
Qed.

Lemma bulk_toggle_visibility_same_users (request : Request) (w : World) :
  db_ok (db w) ->
  same_users (db w) (db (snd (serve (bulk_toggle_visibility request) w))).
Proof.
  intros (Hnd & _).
  destruct (json request) as [data|] eqn:Hjson;
    [|unfold bulk_toggle_visibility;
      rewrite bulk_without_json by exact Hjson; apply same_users_refl].
  destruct (is_authenticated w) eqn:Hauth;
    [|unfold bulk_toggle_visibility;
      rewrite login_required_denied_run by exact Hauth;
      apply same_users_refl].
  rewrite (bulk_toggle_visibility_run w request data Hauth Hnd Hjson).
  apply same_users_with_medias.
Qed.

Lemma bulk_delete_same_users (request : Request) (w : World) :
  db_ok (db w) ->
  same_users (db w) (db (snd (serve (bulk_delete lib request) w))).
Proof.
  intros (Hnd & _).
  destruct (json request) as [data|] eqn:Hjson;
    [|unfold bulk_delete;
      rewrite bulk_without_json by exact Hjson; apply same_users_refl].
  destruct (is_authenticated w) eqn:Hauth;
    [|unfold bulk_delete;
      rewrite login_required_denied_run by exact Hauth;
      apply same_users_refl].
  destruct (bulk_delete_run lib w request data Hauth Hnd Hjson)
    as (T & _ & _ & [[-> _] | (e & ->)]);
    [apply same_users_with_medias | apply same_users_refl].
Qed.

(** X7: on tables that satisfy the schema constraints, a request leaves
    the users table and its sequence as they are unless it goes to
    /setup or /register, and the media table and its sequence as they
    are unless it goes to /upload, /delete, /toggle_visibility,
    /bulk_toggle_visibility or /bulk_delete; /login, /logout, /,
    /gallery, /manage and /download_selected write no table. *)
Theorem routes_write_their_table (r : Route) (request : Request)
    (w : World) :
  db_ok (db w) ->
  let d' := db (snd (serve (dispatch lib r request) w)) in
  (writes_users r = false -> same_users (db w) d') /\
  (writes_medias r = false -> same_medias (db w) d').
Proof.
  intros Hok d'. subst d'. unfold dispatch.
  destruct (matched r);
    [|split; intros _; [apply same_users_refl | apply same_medias_refl]].
  destruct (allows (methods r) (method request));
    [|split; intros _; [apply same_users_refl | apply same_medias_refl]].
  destruct r; cbn [view_function writes_users writes_medias];
    (split; intros Hw; try discriminate Hw).
  - now apply setup_same_medias.
  - apply register_same_medias.
  - rewrite serve_keeps_db by apply login_keeps_db. apply same_users_refl.
  - rewrite serve_keeps_db by apply login_keeps_db. apply same_medias_refl.
  - rewrite serve_keeps_db; [apply same_users_refl|].
    unfold logout, logout_user. keeps.
  - rewrite serve_keeps_db; [apply same_medias_refl|].
    unfold logout, logout_user. keeps.
  - apply same_users_refl.
  - apply same_medias_refl.
  - apply upload_same_users.
  - rewrite gallery_run. apply same_users_refl.
  - rewrite gallery_run. apply same_medias_refl.
  - rewrite serve_keeps_db; [apply same_users_refl|].
    unfold manage, Media_query_all. keeps.
  - rewrite serve_keeps_db; [apply same_medias_refl|].
    unfold manage, Media_query_all. keeps.
  - apply delete_same_users.
  - now apply toggle_visibility_same_users.
  - rewrite serve_keeps_db by apply download_selected_keeps_db.
    apply same_users_refl.
  - rewrite serve_keeps_db by apply download_selected_keeps_db.
    apply same_medias_refl.
  - now apply bulk_toggle_visibility_same_users.
  - now apply bulk_delete_same_users.
Qed.

End FrameFacts.

(** ** How the media routes compose *)

Lemma toggle_row_twice (i : Z) (rows : list Media.t) :
  toggle_row i (toggle_row i rows) = rows.
Proof.
  unfold toggle_row. rewrite map_map. rewrite <- (map_id rows) at 2.
  apply map_ext. intros r.
  destruct (Media.id r =? i) eqn:E; [|now rewrite E].
  change (Media.id (toggled r)) with (Media.id r). rewrite E.
  apply toggled_twice.
Qed.

Lemma toggle_rows_twice (ids : list Z) (rows : list Media.t) :
  toggle_rows ids (toggle_rows ids rows) = rows.
Proof.
  unfold toggle_rows. rewrite map_map. rewrite <- (map_id rows) at 2.
  apply map_ext. intros r.
  destruct (Nat.odd (count_occ Z.eq_dec ids (Media.id r))) eqn:E;
    [|now rewrite E].
  change (Media.id (toggled r)) with (Media.id r). rewrite E.
  apply toggled_twice.
Qed.

Lemma toggle_rows_single (i : Z) (rows : list Media.t) :
  toggle_rows [i] rows = toggle_row i rows.
Proof.
  unfold toggle_rows, toggle_row. apply map_ext. intros r. cbn [count_occ].
  destruct (Z.eq_dec i (Media.id r)) as [E|E].
  - subst i. now rewrite Z.eqb_refl.
  - assert (E' : (Media.id r =? i) = false) by (apply Z.eqb_neq; congruence).
    now rewrite E'.
Qed.

Lemma toggle_row_absent (i : Z) (rows : list Media.t) :
  find_media i rows = None -> toggle_row i rows = rows.
Proof.
  intros Hnone. unfold toggle_row. rewrite <- (map_id rows) at 2.
  apply map_ext_in. intros r Hr.
  pose proof (find_media_none i rows r Hnone Hr) as Hne.
  apply Z.eqb_neq in Hne. now rewrite Hne.
Qed.

Lemma toggle_rows_permutation (ids ids' : list Z) (rows : list Media.t) :
  Permutation ids ids' -> toggle_rows ids rows = toggle_rows ids' rows.
Proof.
  intros Hperm. unfold toggle_rows. apply map_ext. intros r.
  now rewrite (proj1 (Permutation_count_occ Z.eq_dec ids ids') Hperm).
Qed.

(** X8: two /toggle_visibility requests for the same id, one after the
    other, leave the tables as they were (with two commits in the log when
    the row exists, none when it does not); the gallery then lists the
    rows it listed before, in the order the database returns them. *)
Theorem toggle_visibility_twice (lib : Services) (w : World) (i : Z) :
  is_authenticated w = true ->
  db_ok (db w) ->
  let w1 := snd (serve (toggle_visibility i) w) in
  let w2 := snd (serve (toggle_visibility i) w1) in
  db w2 = db w /\
  trace w2 = trace w ++ match find_media i (medias (db w)) with
                        | Some _ => [EvCommit; EvCommit]
                        | None => []
                        end /\
  exists before after,
    serve (gallery lib) w = (render_template "gallery.html" before, w) /\
    serve (gallery lib) w2 = (render_template "gallery.html" after, w2) /\
    Permutation after before.
Proof.
  intros Hauth Hok w1 w2.
  assert (Hdb : db w2 = db w /\
                trace w2 = trace w ++ match find_media i (medias (db w)) with
                                      | Some _ => [EvCommit; EvCommit]
                                      | None => []
                                      end).
  { subst w2 w1.
    destruct (find_media i (medias (db w))) as [m|] eqn:Hfind.
    - rewrite (toggle_visibility_found w i m Hauth Hok Hfind). cbn [snd].
      set (w1 := mkWorld _ _ _ _).
      assert (Hauth1 : is_authenticated w1 = true)
        by (now rewrite (is_authenticated_same_users w w1)).
      assert (Hok1 : db_ok (db w1)) by (now apply db_ok_toggle_row).
      assert (Hfind1 : find_media i (medias (db w1)) = Some (toggled m)).
      { cbn [w1 db medias with_medias]. unfold toggle_row.
        rewrite find_media_map by (intros o; now destruct (Media.id o =? i)).
        rewrite Hfind. cbn [option_map].
        apply find_media_spec in Hfind as [_ Hid].
        apply Z.eqb_eq in Hid. now rewrite Hid. }
      rewrite (toggle_visibility_found w1 i _ Hauth1 Hok1 Hfind1).
      cbn [snd db w1 medias with_medias trace].
      rewrite with_medias_twice, toggle_row_twice, with_medias_same.
      rewrite <- app_assoc. now split.
    - rewrite (toggle_visibility_missing w i Hauth Hfind). cbn [snd].
      rewrite (toggle_visibility_missing w i Hauth Hfind). cbn [snd].
      rewrite app_nil_r. now split. }
  destruct Hdb as [Hdb Htrace]. split; [exact Hdb|]. split; [exact Htrace|].
  destruct (gallery_lists_visible lib w) as (before & Hbefore & Hperm).
  destruct (gallery_lists_visible lib w2) as (after & Hafter & Hperm2).
  exists before, after. split; [exact Hbefore|]. split; [exact Hafter|].
  rewrite Hperm2, Hdb. now symmetry.
Qed.

(** X9: /bulk_toggle_visibility depends on how often each id is listed and
    not on the order: two bodies whose lists are permutations of each
    other give the same answer and the same world. *)
Theorem bulk_toggle_visibility_order_irrelevant (w : World)
    (request request' : Request) (data data' : list (string * list Z)) :
  is_authenticated w = true ->
  db_ok (db w) ->
  json request = Some data ->
  json request' = Some data' ->
  Permutation (multi_get_default "media_ids" [] data)
              (multi_get_default "media_ids" [] data') ->
  serve (bulk_toggle_visibility request) w =
  serve (bulk_toggle_visibility request') w.
Proof.
  intros Hauth (Hnd & _) Hjson Hjson' Hperm.
  rewrite (bulk_toggle_visibility_run w request data Hauth Hnd Hjson).
  rewrite (bulk_toggle_visibility_run w request' data' Hauth Hnd Hjson').
  now rewrite (toggle_rows_permutation _ _ _ Hperm).
Qed.

(** X10: the same /bulk_toggle_visibility request served twice leaves the
    tables as they were, whatever ids it lists and however often. *)
Theorem bulk_toggle_visibility_twice (w : World) (request : Request)
    (data : list (string * list Z)) :
  is_authenticated w = true ->
  db_ok (db w) ->
  json request = Some data ->
  let w1 := snd (serve (bulk_toggle_visibility request) w) in
  let w2 := snd (serve (bulk_toggle_visibility request) w1) in
  db w2 = db w /\ trace w2 = trace w ++ [EvCommit; EvCommit].
Proof.
  intros Hauth Hok Hjson w1 w2. subst w2 w1.
  pose proof Hok as (Hnd & _).
  rewrite (bulk_toggle_visibility_run w request data Hauth Hnd Hjson).
  cbn [snd]. set (w1 := mkWorld _ _ _ _).
  assert (Hauth1 : is_authenticated w1 = true)
    by (now rewrite (is_authenticated_same_users w w1)).
  assert (Hnd1 : NoDup (map Media.id (medias (db w1))))
    by (apply (db_ok_toggle_rows (db w) _ Hok)).
  rewrite (bulk_toggle_visibility_run w1 request data Hauth1 Hnd1 Hjson).
  cbn [snd db w1 medias with_medias trace].
  rewrite with_medias_twice, toggle_rows_twice, with_medias_same.
  rewrite <- app_assoc. now split.
Qed.

(** X11: /bulk_toggle_visibility with the one id [i] leaves the tables as
    /toggle_visibility/i does, also when no row has that id (the bulk
    route then commits an unchanged table). *)
Theorem bulk_toggle_visibility_single (w : World) (request : Request)
    (i : Z) :
  is_authenticated w = true ->
  db_ok (db w) ->
  json request = Some [("media_ids"%string, [i])] ->
  db (snd (serve (bulk_toggle_visibility request) w)) =
  db (snd (serve (toggle_visibility i) w)).
Proof.
  intros Hauth Hok Hjson. pose proof Hok as (Hnd & _).
  rewrite (bulk_toggle_visibility_run w request _ Hauth Hnd Hjson).
  change (multi_get_default "media_ids" [] [("media_ids"%string, [i])])
    with [i].
  cbn [snd db]. rewrite toggle_rows_single.
  destruct (find_media i (medias (db w))) as [m|] eqn:Hfind.
  - now rewrite (toggle_visibility_found w i m Hauth Hok Hfind).
  - rewrite (toggle_visibility_missing w i Hauth Hfind). cbn [snd].
    now rewrite toggle_row_absent, with_medias_same.
Qed.

Section DeleteAgain.

Variable lib : Services.

(** X12: /delete for an id that has no row makes no destroy call and
    changes nothing; in particular, after a /delete whose destroy call
    returned, a second /delete of the same id is such a request. *)
Theorem delete_twice (w : World) (i : Z) :
  is_authenticated w = true ->
  match find_media i (medias (db w)) with
  | None => serve (delete lib i) w = (redirect "manage", w)
  | Some m =>
      forall r,
        uploader_destroy lib (List.length (trace w)) (Media.public_id m) =
          Return r ->
        let w1 := snd (serve (delete lib i) w) in
        find_media i (medias (db w1)) = None /\
        serve (delete lib i) w1 = (redirect "manage", w1)
  end.
Proof.
  intros Hauth.
  destruct (find_media i (medias (db w))) as [m|] eqn:Hfind;
    [|now apply delete_missing].
  intros r Hr w1. subst w1.
  rewrite (delete_run lib w i m Hauth Hfind), Hr. cbn [snd].
  set (w1 := mkWorld _ _ _ _).
  assert (Hgone : find_media i (medias (db w1)) = None)
    by apply find_media_delete_row.
  split; [exact Hgone|].
  apply delete_missing; [|exact Hgone].
  now rewrite (is_authenticated_same_users w w1).
Qed.

End DeleteAgain.

(** ** Computations that stay within a relation on worlds *)

Section Within.

Variable R : World -> World -> Prop.
Hypothesis R_refl : forall w, R w w.
Hypothesis R_trans : forall w1 w2 w3, R w1 w2 -> R w2 w3 -> R w1 w3.

Lemma within_ret {A} (a : A) : within R (ret a).
Proof. intros s. apply R_refl. Qed.

Lemma within_raise {A} (e : Exception) : within R (@raise A e).
Proof. intros s. apply R_refl. Qed.

Lemma within_bind {A B} (c : M A) (k : A -> M B) :
  within R c -> (forall a, within R (k a)) -> within R (bind c k).
Proof.
  intros Hc Hk s. unfold bind. specialize (Hc s).
  destruct (c s) as [[a|e] s']; simpl in *; [|exact Hc].
  exact (R_trans _ _ _ Hc (Hk a s')).
Qed.

Lemma within_for_fold {A B} (l : list A) (body : B -> A -> M B) :
  (forall acc x, within R (body acc x)) ->
  forall acc, within R (for_fold l acc body).
Proof.
  intros Hbody. induction l as [|x l IH]; intros acc; simpl.
  - apply within_ret.
  - apply within_bind; [apply Hbody | exact IH].
Qed.

Lemma within_Media_query_get (i : Z) : within R (Media_query_get i).
Proof. intros s. rewrite Media_query_get_world. apply R_refl. Qed.

Lemma within_login_required (view : M Response) :
  (forall w msg,
     R w (mkWorld (db w) (user_id w) (flashes w ++ [msg]) (trace w))) ->
  within R view -> within R (login_required view).
Proof.
  intros Hflash Hview. unfold login_required.
  apply within_bind.
  - intros s. unfold current_user.
    destruct (user_id (world s)); [|apply R_refl].
    unfold User_query_get, autoflush, bind.
    pose proof (flush_world s) as Hw.
    destruct (flush s) as [[[]|e] s1]; cbn [snd] in *; rewrite Hw;
      apply R_refl.
  - intros [u|]; [exact Hview|].
    apply within_bind; [|intros; apply within_ret].
    intros s. apply Hflash.
Qed.

Lemma serve_within (view : M Response) (w : World) :
  within R view -> R w (snd (serve view w)).
Proof.
  intros Hview. unfold serve. specialize (Hview (begin w)).
  now destruct (view (begin w)) as [[r|e] s].
Qed.

End Within.

Lemma only_reads_refl (w : World) : only_reads w w.
Proof.
  split; [reflexivity|]. split; [reflexivity|].
  exists []. split; [now rewrite app_nil_r | constructor].
Qed.

Lemma only_reads_trans (w1 w2 w3 : World) :
  only_reads w1 w2 -> only_reads w2 w3 -> only_reads w1 w3.
Proof.
  intros (Hd & Hu & T & HT & HG) (Hd' & Hu' & T' & HT' & HG').
  split; [congruence|]. split; [congruence|].
  exists (T ++ T'). split.
  - now rewrite HT', HT, app_assoc.
  - apply Forall_app. now split.
Qed.

Lemma for_fold_app {A B} (l l' : list A) (acc : B) (body : B -> A -> M B)
    (s : State) :
  for_fold (l ++ l') acc body s =
  bind (for_fold l acc body) (fun acc' => for_fold l' acc' body) s.
Proof.
  revert acc s. induction l as [|x l IH]; intros acc s.
  - reflexivity.
  - cbn [app for_fold]. unfold bind.
    destruct (body acc x s) as [[a|e] s1]; [|reflexivity].
    rewrite IH. reflexivity.
Qed.

(** ** download_selected: what it never does, and its early exits *)

Section DownloadEdges.

Variable lib : Services.

Lemma download_selected_within_reads (request : Request) :
  within only_reads (download_selected lib request).
Proof.
  unfold download_selected.
  apply (within_login_required _ only_reads_refl only_reads_trans).
  { intros w msg. split; [reflexivity|]. split; [reflexivity|].
    exists []. split; [now rewrite app_nil_r | constructor]. }
  destruct (getlist "media_ids" (form request)) as [|x xs].
  - apply (within_bind _ only_reads_trans);
      [|intros; apply (within_ret _ only_reads_refl)].
    intros s. split; [reflexivity|]. split; [reflexivity|].
    exists []. split; [now rewrite app_nil_r | constructor].
  - apply (within_bind _ only_reads_trans);
      [|intros; apply (within_ret _ only_reads_refl)].
    apply (within_for_fold _ only_reads_refl only_reads_trans).
    intros zf media_id.
    apply (within_bind _ only_reads_trans);
      [intros s; apply only_reads_refl|].
    intros i.
    apply (within_bind _ only_reads_trans);
      [apply (within_Media_query_get _ only_reads_refl)|].
    intros [media|]; [|apply (within_ret _ only_reads_refl)].
    apply (within_bind _ only_reads_trans);
      [|intros; apply (within_ret _ only_reads_refl)].
    intros s. split; [reflexivity|]. split; [reflexivity|].
    exists [EvGet (Media.url media)]. split; [reflexivity|].
    repeat constructor.
Qed.

(** X13: whatever is posted to /download_selected, by whomever, and
    whatever the integer conversions and the downloads do, the request
    commits nothing, leaves the login as it is, and the only calls it
    makes to the outside are downloads: no upload, no destroy. *)
Theorem download_selected_only_reads (request : Request) (w : World) :
  only_reads w (snd (serve (download_selected lib request) w)).
Proof.
  apply (serve_within _ (download_selected lib request) w).
  apply download_selected_within_reads.
Qed.

(** X14: an authenticated /download_selected with no [media_ids] field
    makes no archive and no download: it flashes "No files selected" and
    redirects to /manage. *)
Theorem download_selected_nothing_selected (request : Request)
    (w : World) :
  is_authenticated w = true ->
  getlist "media_ids" (form request) = [] ->
  serve (download_selected lib request) w =
    (redirect "manage",
     mkWorld (db w) (user_id w)
             (flashes w ++ ["No files selected"%string]) (trace w)).
Proof.
  intros Hauth Hsel. unfold serve, download_selected.
  rewrite login_required_begin by exact Hauth.
  now rewrite Hsel.
Qed.

(** X15: when a selected value is not an integer, the request ends with
    the error of the conversion and no archive is sent, although the
    files of the ids before it have been downloaded; the tables are
    untouched. *)
Theorem download_selected_bad_id (request : Request) (w : World)
    (parse : string -> Z) (good rest : list string) (x : string)
    (e : Exception) :
  is_authenticated w = true ->
  db_ok (db w) ->
  getlist "media_ids" (form request) = good ++ x :: rest ->
  (forall y, In y good -> int lib y = Return (parse y)) ->
  let found := selected_rows (map parse good) (medias (db w)) in
  (forall k m,
     nth_error found k = Some m ->
     exists content,
       requests_get lib (List.length (trace w) + k) (Media.url m) =
         Return content) ->
  int lib x = Raise e ->
  serve (download_selected lib request) w =
    (error_page e,
     mkWorld (db w) (user_id w) (flashes w)
             (trace w ++ map (fun m => EvGet (Media.url m)) found)).
Proof.
  intros Hauth (Hnd & _) Hsel Hgood found Hfetch Hx.
  unfold serve, download_selected.
  rewrite login_required_begin by exact Hauth.
  rewrite Hsel.
  destruct (good ++ x :: rest) as [|y ys] eqn:E;
    [destruct good; discriminate|].
  rewrite <- E. unfold bind at 1.
  change (for_fold (good ++ x :: rest) [] _ (begin w))
    with (for_fold (good ++ x :: rest) [] (download_body lib) (begin w)).
  rewrite for_fold_app. unfold bind at 1.
  destruct (download_loop lib parse good (begin w) []) as (objs & -> & _);
    auto.
  { intros o []. }
  cbn [for_fold]. unfold bind at 1.
  unfold download_body at 1, bind at 1, py_int. now rewrite Hx.
Qed.

End DownloadEdges.

(** ** bulk_delete: a destroy call that raises after another returned *)

Section PartialFailure.

Variable lib : Services.

Lemma bulk_delete_serve (w : World) (request : Request)
    (data : list (string * list Z)) :
  is_authenticated w = true ->
  json request = Some data ->
  serve (bulk_delete lib request) w =
  match for_each (multi_get_default "media_ids" [] data)
                 (delete_body lib) (begin w) with
  | (Return _, s) =>
      match db_session_commit s with
      | (Return _, s') => (success, world s')
      | (Raise e, s') => (error_page e, world s')
      end
  | (Raise e, s) => (error_page e, world s)
  end.
Proof.
  intros Hauth Hjson.
  set (media_ids := multi_get_default "media_ids" [] data).
  unfold serve, bulk_delete.
  rewrite login_required_begin by exact Hauth.
  unfold bind at 1. rewrite (get_json_some _ _ Hjson). unfold ret at 1.
  fold media_ids. unfold bind at 1.
  change (for_each media_ids _ (begin w))
    with (for_each media_ids (delete_body lib) (begin w)).
  destruct (for_each media_ids (delete_body lib) (begin w))
    as [[[]|e] s]; [|reflexivity].
  unfold bind, ret. now destruct (db_session_commit s) as [[[]|e] s'].
Qed.

(** X16: /bulk_delete for the ids [i, j, ...] of two rows, when the
    destroy call for the first returns and the one for the second
    raises: the request ends with that error and commits nothing, so
    the row of [i] is still in the table although its remote object has
    been destroyed. *)
Theorem bulk_delete_partial_failure (w : World) (request : Request)
    (data : list (string * list Z)) (i j : Z) (rest : list Z)
    (m_i m_j : Media.t) (r : string) (e : Exception) :
  is_authenticated w = true ->
  json request = Some data ->
  multi_get_default "media_ids" [] data = i :: j :: rest ->
  i <> j ->
  find_media i (medias (db w)) = Some m_i ->
  find_media j (medias (db w)) = Some m_j ->
  uploader_destroy lib (List.length (trace w)) (Media.public_id m_i) =
    Return r ->
  uploader_destroy lib (List.length (trace w) + 2)
                   (Media.public_id m_j) = Raise e ->
  let w' := mkWorld (db w) (user_id w) (flashes w)
              (trace w ++ [EvDestroy (Media.public_id m_i); EvDelete m_i;
                           EvDestroy (Media.public_id m_j)]) in
  serve (bulk_delete lib request) w = (error_page e, w') /\
  find_media i (medias (db w')) = Some m_i /\
  In (EvDestroy (Media.public_id m_i)) (trace w').
Proof.
  intros Hauth Hjson Hids Hij Hfi Hfj Hdi Hdj w'.
  split; [|split; [exact Hfi | apply in_app_iff; right; now left]].
  rewrite (bulk_delete_serve w request data Hauth Hjson), Hids.
  destruct (find_media_spec _ _ _ Hfi) as [_ Hid_i].
  destruct (find_media_spec _ _ _ Hfj) as [_ Hid_j].
  unfold for_each. cbn [for_fold]. unfold bind at 1.
  unfold delete_body at 1, bind at 1.
  rewrite Media_query_get_begin, Hfi.
  unfold bind at 1, cloudinary_uploader_destroy at 1, tick.
  cbn [world]. rewrite Hdi.
  unfold db_session_delete, bind at 1, emit, add_pending, modify.
  cbn [on_world world txn identity_map pending app].
  set (s2 := mkState _ (db w) [m_i] [DeleteMedia (Media.id m_i)]).
  assert (HP : Forall is_delete (pending s2)) by (now repeat constructor).
  assert (HJ : forall o, In o (identity_map s2) ->
                         marked (Media.id o) (pending s2) = true).
  { intros o [<- | []]. unfold marked; simpl. now rewrite Z.eqb_refl. }
  assert (Hrow : find_media j (remaining s2) = Some m_j).
  { unfold remaining, find_media. apply find_filter_keep; [exact Hfj|].
    unfold marked; simpl. rewrite Hid_i, Hid_j, orb_false_r.
    apply negb_true_iff, Z.eqb_neq. congruence. }
  unfold bind at 1, delete_body at 1, bind at 1.
  rewrite Media_query_get_deletes by exact HP. cbv zeta.
  assert (Hmiss : find_media j (identity_map s2) = None).
  { unfold find_media; simpl. rewrite Hid_i.
    apply Z.eqb_neq in Hij. now rewrite Hij. }
  rewrite Hmiss, (flushed_deleting s2 HP HJ).
  cbn [txn medias with_medias]. rewrite Hrow.
  unfold bind at 1, cloudinary_uploader_destroy, tick.
  cbn [world s2 trace log].
  rewrite !length_app. cbn [List.length].
  replace (List.length (trace w) + 1 + 1)%nat
    with (List.length (trace w) + 2)%nat by lia.
  rewrite Hdj. unfold on_world, log; cbn [world db user_id flashes trace].
  now rewrite <- !app_assoc.
Qed.

End PartialFailure.

(** ** Upload, lookup and delete; setup and login *)


Section RoundTrips.

Variable lib : Services.



End RoundTrips.

(** ** The concrete instance satisfies the schema constraints *)

Lemma demo_world_ok : db_ok (db Demo.world).
Proof.
  unfold db_ok; simpl. repeat split.
  - repeat constructor; simpl; intuition discriminate.
  - repeat constructor; simpl; intuition discriminate.
  - repeat constructor; simpl; intuition discriminate.
  - intros m [<- | [<- | []]]; reflexivity.
  - intros u [<- | []]; reflexivity.
Defined.


(** ** The theorems at the concrete instance *)

Lemma upload_without_file_witness :
  serve (upload (Demo.lib "ok") (Demo.post_form [])) Demo.world =
    (render_template "upload.html" [], Demo.world).
Proof.
  apply upload_without_file; [reflexivity | left; reflexivity].
Defined.

Lemma upload_remote_failure_witness :
  serve (upload Demo.offline (Demo.post_file Demo.cat)) Demo.world =
    (redirect "upload",
     mkWorld (db Demo.world) (Some 1)
             ["Upload failed: connection refused"%string]
             [EvUpload "cat.png"]).
Proof.
  apply (upload_remote_failure Demo.offline Demo.world
           (Demo.post_file Demo.cat) Demo.cat
           (Exc "Error" "connection refused"));
    [reflexivity | reflexivity | discriminate | reflexivity].
Defined.




(** The row of id 1 is visible; after the toggle the database returns it
    behind the row of id 3.  No row has the id 7. *)
Lemma toggle_visibility_spec_witness :
  is_authenticated Demo.world = true /\
  db_ok (db Demo.world) /\
  serve (gallery Limits.rewriting) Demo.world =
    (render_template "gallery.html" [Demo.photo], Demo.world) /\
  serve (gallery Limits.rewriting) Limits.hidden =
    (render_template "gallery.html" [], Limits.hidden) /\
  serve (manage Limits.rewriting) Limits.hidden =
    (render_template "manage.html" [Demo.notes; toggled Demo.photo],
     Limits.hidden) /\
  serve (toggle_visibility 1) Demo.world = (redirect "manage", Limits.hidden) /\
  serve (toggle_visibility 7) Demo.world = (redirect "manage", Demo.world).
Proof.
  split; [reflexivity|]. split; [exact demo_world_ok|].
  split; [reflexivity|]. split; [reflexivity|]. split; [reflexivity|].
  split.
  - pose proof (toggle_visibility_spec Limits.rewriting Demo.world 1
                  eq_refl demo_world_ok) as H.
    destruct (serve (toggle_visibility 1) Demo.world) as [response w'].
    destruct H as (Hr & _ & Hm & _).
    destruct (Hm Demo.photo (or_introl eq_refl) eq_refl) as (Hw & _).
    now rewrite Hr, Hw.
  - pose proof (toggle_visibility_spec Limits.rewriting Demo.world 7
                  eq_refl demo_world_ok) as H.
    destruct (serve (toggle_visibility 7) Demo.world) as [response w'].
    destruct H as (Hr & Hnone & _).
    rewrite Hr, Hnone; [reflexivity|].
    intros r [<- | [<- | []]]; discriminate.
Defined.

Lemma delete_aborts_when_destroy_raises_witness :
  is_authenticated Demo.world = true /\
  find_media 1 (medias (db Demo.world)) = Some Demo.photo /\
  fst (serve (delete Demo.offline 1) Demo.world) =
    error_page (Exc "Error" "connection refused") /\
  db (snd (serve (delete Demo.offline 1) Demo.world)) = db Demo.world.
Proof.
  split; [reflexivity|]. split; [reflexivity|].
  pose proof (delete_aborts_when_destroy_raises Demo.offline Demo.world 1
                Demo.photo eq_refl eq_refl) as H.
  cbv zeta in H.
  destruct (serve (delete Demo.offline 1) Demo.world) as [response w'].
  exact (proj1 H (Exc "Error" "connection refused") eq_refl).
Defined.

(** The example of the specification: of the ids 1, 3 and 999 only 1 and 3
    have a row. *)
Lemma bulk_toggle_visibility_spec_witness :
  is_authenticated Demo.world = true /\
  db_ok (db Demo.world) /\
  serve (bulk_toggle_visibility (Demo.post_json [1; 3; 999])) Demo.world =
    (success,
     mkWorld (mkDatabase [Demo.admin]
                         [toggled Demo.photo; toggled Demo.notes] 2 4)
             (Some 1) [] [EvCommit]).
Proof.
  split; [reflexivity|]. split; [exact demo_world_ok|].
  exact (proj1 (bulk_toggle_visibility_spec Demo.world
                  (Demo.post_json [1; 3; 999])
                  [("media_ids"%string, [1; 3; 999])]
                  eq_refl demo_world_ok eq_refl)).
Defined.

(** The ids 1 and 7 are selected and only 1 has a row: the one download
    made is that of the photo, which this service answers, while it
    fails for every other URL. *)
Lemma download_selected_spec_witness :
  is_authenticated Demo.world = true /\
  db_ok (db Demo.world) /\
  requests_get Limits.one_url 0 (Media.url Demo.notes) =
    Raise (Exc "ConnectionError" "Max retries exceeded") /\
  serve (download_selected Limits.one_url Demo.select_1_7) Demo.world =
    (send_file [("photo.png"%string, list_byte_of_string "PNG")]
               "selected_media.zip" true,
     mkWorld (db Demo.world) (Some 1) []
             [EvGet "https://res.example/photo.png"]) /\
  exists archive,
    fst (serve (download_selected Limits.one_url Demo.select_1_7) Demo.world) =
      send_file archive "selected_media.zip" true /\
    nth_error archive 0 = Some ("photo.png"%string, list_byte_of_string "PNG").
Proof.
  split; [reflexivity|]. split; [exact demo_world_ok|].
  split; [reflexivity|]. split; [reflexivity|].
  assert (Hparse : forall x,
             In x (getlist "media_ids" (form Demo.select_1_7)) ->
             int Limits.one_url x = Return (Demo.parse x)).
  { intros x [<- | [<- | []]]; reflexivity. }
  assert (Hfetch : forall k m,
             nth_error
               (selected_rows
                  (map Demo.parse (getlist "media_ids" (form Demo.select_1_7)))
                  (medias (db Demo.world))) k = Some m ->
             exists content,
               requests_get Limits.one_url
                 (List.length (trace Demo.world) + k) (Media.url m) =
                 Return content).
  { intros [|[|k]] m H; try discriminate H.
    injection H as <-. eexists. reflexivity. }
  destruct (download_selected_spec Limits.one_url Demo.world Demo.select_1_7
              Demo.parse eq_refl demo_world_ok ltac:(discriminate)
              Hparse Hfetch)
    as (archive & Hrun & _ & Hnth & _).
  exists archive. rewrite Hrun. split; [reflexivity|].
  destruct (Hnth 0%nat Demo.photo eq_refl) as (content & Hc & Hentry).
  rewrite Hentry. injection Hc as <-. reflexivity.
Defined.


(** ** Where the specification and the code differ *)

(** /delete with a destroy call that returns the result "not found": the
    destroy is not acknowledged as successful, and the row is removed. *)
Lemma delete_without_acknowledgement :
  is_authenticated Demo.world = true /\
  find_media 1 (medias (db Demo.world)) = Some Demo.photo /\
  acknowledged
    (uploader_destroy (Demo.lib "not found")
       (List.length (trace Demo.world)) (Media.public_id Demo.photo)) = false /\
  fst (serve (delete (Demo.lib "not found") 1) Demo.world) = redirect "manage" /\
  find_media 1
    (medias (db (snd (serve (delete (Demo.lib "not found") 1) Demo.world)))) =
    None.
Proof. repeat split. Qed.

(** /bulk_toggle_visibility with the ids [1, 1]: the row of id 1 is found,
    and its flag is as before. *)
Lemma bulk_toggle_repeated_id :
  is_authenticated Demo.world = true /\
  find_media 1 (medias (db Demo.world)) = Some Demo.photo /\
  serve (bulk_toggle_visibility (Demo.post_json [1; 1])) Demo.world =
    (success, mkWorld (db Demo.world) (Some 1) [] [EvCommit]) /\
  Media.is_visible (toggled Demo.photo) <> Media.is_visible Demo.photo.
Proof. repeat split. discriminate. Qed.

(** /download_selected with the id 1 selected twice: one row is selected,
    and the archive has two entries. *)
Lemma download_repeated_id :
  is_authenticated Demo.world = true /\
  getlist "media_ids" (form Demo.select_1_1) = ["1"; "1"]%string /\
  filter (fun m => existsb (Z.eqb (Media.id m)) [1; 1])
         (medias (db Demo.world)) = [Demo.photo] /\
  fst (serve (download_selected (Demo.lib "ok") Demo.select_1_1) Demo.world) =
    send_file [("photo.png"%string,
                list_byte_of_string "https://res.example/photo.png");
               ("photo.png"%string,
                list_byte_of_string "https://res.example/photo.png")]
              "selected_media.zip" true.
Proof. repeat split. Qed.




(** ** The further properties at concrete cases *)

Lemma protected_routes_require_login_witness :
  serve (view_function (Demo.lib "ok") (route_delete 1) (Demo.post_form []))
        Cases.visitor =
    (redirect "login", denied Cases.visitor).
Proof.
  apply protected_routes_require_login; reflexivity.
Defined.

Lemma login_success_witness :
  fst (serve (login (Demo.lib "ok") (Cases.login_admin "secret"))
             Cases.visitor) = redirect "manage".
Proof.
  destruct (login_success (Demo.lib "ok") Cases.visitor
              (Cases.login_admin "secret") "admin" "secret" Demo.admin
              eq_refl eq_refl eq_refl eq_refl eq_refl) as (Hrun & _).
  now rewrite Hrun.
Defined.


Lemma logout_ends_session_witness :
  is_authenticated Demo.world = true /\
  serve logout Demo.world = (redirect "gallery", Cases.visitor).
Proof.
  split; [reflexivity|].
  exact (proj1 (logout_ends_session (Demo.lib "ok") Demo.world eq_refl)).
Defined.

Lemma setup_invalidates_session_witness :
  db_ok (db Demo.world) /\
  is_authenticated
    (snd (serve (setup (Demo.lib "ok") (Cases.login_admin "new"))
                Demo.world)) = false.
Proof.
  split; [exact demo_world_ok|].
  exact (setup_invalidates_session (Demo.lib "ok") Demo.world
           (Cases.login_admin "new") "admin" "new" Demo.admin
           demo_world_ok eq_refl eq_refl eq_refl eq_refl).
Defined.

Lemma setup_rejects_empty_witness :
  serve (setup (Demo.lib "ok")
           (Demo.post_form [("username", "admin")]%string)) Demo.world =
    (render_template "setup.html" [],
     mkWorld (db Demo.world) (Some 1)
             ["Username and password cannot be empty."%string] []).
Proof.
  apply setup_rejects_empty; [reflexivity | right; reflexivity].
Defined.

Lemma routes_write_their_table_witness :
  db_ok (db Demo.world) /\
  same_users (db Demo.world)
    (db (snd (serve (dispatch (Demo.lib "ok") route_upload
                       (Demo.post_file Demo.cat)) Demo.world))).
Proof.
  split; [exact demo_world_ok|].
  exact (proj1 (routes_write_their_table (Demo.lib "ok") route_upload
                  (Demo.post_file Demo.cat) Demo.world demo_world_ok)
               eq_refl).
Defined.

(** The row of id 1 is toggled twice; the gallery lists the photo before
    and after. *)
Lemma toggle_visibility_twice_witness :
  is_authenticated Demo.world = true /\
  db_ok (db Demo.world) /\
  serve (toggle_visibility 1) Limits.hidden =
    (redirect "manage",
     mkWorld (db Demo.world) (Some 1) [] [EvCommit; EvCommit]) /\
  serve (gallery Limits.rewriting)
        (mkWorld (db Demo.world) (Some 1) [] [EvCommit; EvCommit]) =
    (render_template "gallery.html" [Demo.photo],
     mkWorld (db Demo.world) (Some 1) [] [EvCommit; EvCommit]) /\
  db (snd (serve (toggle_visibility 1)
                 (snd (serve (toggle_visibility 1) Demo.world)))) =
    db Demo.world.
Proof.
  split; [reflexivity|]. split; [exact demo_world_ok|].
  split; [reflexivity|]. split; [reflexivity|].
  exact (proj1 (toggle_visibility_twice Limits.rewriting Demo.world 1
                  eq_refl demo_world_ok)).
Defined.

Lemma bulk_toggle_visibility_order_irrelevant_witness :
  Permutation [1; 3; 1] [1; 1; 3] /\
  serve (bulk_toggle_visibility (Demo.post_json [1; 3; 1])) Demo.world =
  serve (bulk_toggle_visibility (Demo.post_json [1; 1; 3])) Demo.world.
Proof.
  assert (Hperm : Permutation [1; 3; 1] [1; 1; 3])
    by (apply perm_skip, perm_swap).
  split; [exact Hperm|].
  exact (bulk_toggle_visibility_order_irrelevant Demo.world
           (Demo.post_json [1; 3; 1]) (Demo.post_json [1; 1; 3])
           [("media_ids"%string, [1; 3; 1])] [("media_ids"%string, [1; 1; 3])]
           eq_refl demo_world_ok eq_refl eq_refl Hperm).
Defined.

Lemma bulk_toggle_visibility_twice_witness :
  db (snd (serve (bulk_toggle_visibility (Demo.post_json [1; 3; 999]))
            (snd (serve (bulk_toggle_visibility (Demo.post_json [1; 3; 999]))
                        Demo.world)))) =
    db Demo.world.
Proof.
  exact (proj1 (bulk_toggle_visibility_twice Demo.world
                  (Demo.post_json [1; 3; 999])
                  [("media_ids"%string, [1; 3; 999])]
                  eq_refl demo_world_ok eq_refl)).
Defined.

Lemma bulk_toggle_visibility_single_witness :
  db (snd (serve (bulk_toggle_visibility (Demo.post_json [3])) Demo.world)) =
  db (snd (serve (toggle_visibility 3) Demo.world)).
Proof.
  exact (bulk_toggle_visibility_single Demo.world (Demo.post_json [3]) 3
           eq_refl demo_world_ok eq_refl).
Defined.

Lemma delete_twice_witness :
  is_authenticated Demo.world = true /\
  serve (delete (Demo.lib "ok") 1)
        (snd (serve (delete (Demo.lib "ok") 1) Demo.world)) =
    (redirect "manage", snd (serve (delete (Demo.lib "ok") 1) Demo.world)).
Proof.
  split; [reflexivity|].
  exact (proj2 (delete_twice (Demo.lib "ok") Demo.world 1 eq_refl
                  "ok"%string eq_refl)).
Defined.

Lemma download_selected_nothing_selected_witness :
  serve (download_selected (Demo.lib "ok") (Demo.post_form [])) Demo.world =
    (redirect "manage",
     mkWorld (db Demo.world) (Some 1) ["No files selected"%string] []).
Proof.
  apply download_selected_nothing_selected; reflexivity.
Defined.

(** The photo is downloaded, then the value abc is refused; the service
    fails for every URL but that of the photo. *)
Lemma download_selected_bad_id_witness :
  is_authenticated Demo.world = true /\
  db_ok (db Demo.world) /\
  serve (download_selected Limits.one_url Cases.select_1_abc) Demo.world =
    (error_page
       (Exc "ValueError" "invalid literal for int() with base 10: 'abc'"),
     mkWorld (db Demo.world) (Some 1) []
             [EvGet "https://res.example/photo.png"]).
Proof.
  split; [reflexivity|]. split; [exact demo_world_ok|].
  apply (download_selected_bad_id Limits.one_url Cases.select_1_abc
           Demo.world Demo.parse ["1"%string] [] "abc"
           (Exc "ValueError" "invalid literal for int() with base 10: 'abc'")
           eq_refl demo_world_ok eq_refl).
  - intros y [<- | []]; reflexivity.
  - intros [|[|k]] m H; try discriminate H.
    injection H as <-. eexists. reflexivity.
  - reflexivity.
Defined.

Lemma bulk_delete_partial_failure_witness :
  serve (bulk_delete Cases.flaky (Demo.post_json [1; 3])) Demo.world =
    (error_page (Exc "Error" "timed out"),
     mkWorld (db Demo.world) (Some 1) []
             [EvDestroy "pid-photo.png"; EvDelete Demo.photo;
              EvDestroy "pid-notes.txt"]).
Proof.
  exact (proj1 (bulk_delete_partial_failure Cases.flaky Demo.world
                  (Demo.post_json [1; 3]) [("media_ids"%string, [1; 3])]
                  1 3 [] Demo.photo Demo.notes "ok"
                  (Exc "Error" "timed out")
                  eq_refl eq_refl eq_refl ltac:(discriminate)
                  eq_refl eq_refl eq_refl eq_refl)).
Defined.

Lemma reachable_db_ok_witness :
  db_ok (db (snd (serve (dispatch (Demo.lib "ok") route_setup
                           (Cases.login_admin "secret")) Cases.start))).
Proof.
  apply (reachable_db_ok (Demo.lib "ok")).
  apply reachable_request. apply reachable_start.
Defined.



